(** * OpenDRIVE backend: directory lookup, listing jobs and retry classification

    A shallow embedding of [opendrive/opendrive.go].  The Go file is one
    driver of the synchronisation framework: it logs in, classifies failed
    calls for the pacer ([shouldRetry]), looks a leaf name up under a
    directory identifier ([FindLeaf]), lists one directory per job
    ([ListDir]) and builds objects from listing entries
    ([newObjectWithInfo]).

    Effects are kept as the code has them.  A method of [*Fs] is a
    computation in the monad [M]: it threads one [World] holding what the Go
    code mutates or writes (the debug log, the calls issued through the pacer, the entries handed to the listing sink, the directory cache) and
    it may panic, as Go does on a nil dereference.

    The packages [fs], [pacer], [rest] and [dircache] are imported by the Go
    file but are not part of it.  What a paced REST call finally returns is a
    parameter of the development ([Remote]); the pieces of those packages
    that a statement depends on are modelled from the specification and
    marked as such. *)

From stdpp Require Import base strings gmap list.
From Stdlib Require Import ZArith Lia.

(** ** Go base types *)

(** Go's [int] on a 64-bit target: a two's-complement 64-bit integer.
    Arithmetic wraps around. *)
Module GoInt.
Definition min : Z := (- 2 ^ 63)%Z.
Definition max : Z := (2 ^ 63 - 1)%Z.
Definition wrap (z : Z) : Z := ((z + 2 ^ 63) `mod` 2 ^ 64 - 2 ^ 63)%Z.
Definition inRange (z : Z) : Prop := (min ≤ z ≤ max)%Z.
Definition sub (a b : Z) : Z := wrap (a - b).
End GoInt.

(** Package [time]: a [Duration] counts nanoseconds, a [Time] built by
    [time.Unix] is kept as its two arguments. *)
Module time.
Definition Duration := Z.
Definition Nanosecond : Duration := 1%Z.
Definition Microsecond : Duration := (1000 * Nanosecond)%Z.
Definition Millisecond : Duration := (1000 * Microsecond)%Z.
Definition Second : Duration := (1000 * Millisecond)%Z.
Definition Minute : Duration := (60 * Second)%Z.
Record Time := Unix { sec : Z; nsec : Z }.
End time.

(** Go [error] values: [errors.New] / [fmt.Errorf] with a constant message,
    and [errors.Wrap].  A nil error is [None] of [option error]. *)
Inductive error :=
| errorsNew (msg : string)
| errorsWrap (cause : error) (msg : string).

Definition fmtErrorf (msg : string) : error := errorsNew msg.

(** ** The imported packages, as far as the driver touches them *)

(** The JSON bodies exchanged with the service.  Only the fields the driver
    reads are kept. *)
Record Account := { Username : string; Password : string }.
Record UserSessionInfo := { SessionID : string }.

Module Folder.
Record t := { FolderID : string; Name : string; DateModified : Z }.
End Folder.

Module File.
Record t := { FileID : string; Name : string; DateModified : Z; Size : Z }.
End File.

Record FolderList := { Folders : list Folder.t; Files : list File.t }.

Module rest.
Record Opts := { Method : string; Path : string }.
End rest.

Module http.
Record Response := { StatusCode : Z }.
End http.

(** Package [pacer] is imported by the driver and is not part of it. *)
Module pacer.
(** Modelled from the spec: the pacer of package [pacer], reduced to its
    configuration knobs (section 6: [minSleep], [maxSleep], [decayConstant],
    each overridable per instance). *)
Record Pacer := {
  minSleep : time.Duration;
  maxSleep : time.Duration;
  decayConstant : Z
}.
(** Modelled from the spec: the setters of package [pacer]; each overrides
    its knob (section 6) and leaves the others alone. *)
Definition SetMinSleep (t : time.Duration) (p : Pacer) : Pacer :=
  {| minSleep := t; maxSleep := maxSleep p; decayConstant := decayConstant p |}.
Definition SetMaxSleep (t : time.Duration) (p : Pacer) : Pacer :=
  {| minSleep := minSleep p; maxSleep := t; decayConstant := decayConstant p |}.
Definition SetDecayConstant (decay : Z) (p : Pacer) : Pacer :=
  {| minSleep := minSleep p; maxSleep := maxSleep p; decayConstant := decay |}.
End pacer.

Module dircache.
(** [dircache.ListDirJob]: one pending directory listing. *)
Record ListDirJob := { DirID : string; Path : string; Depth : Z }.

(** [dircache.New(root, rootID, f)]: the cache's fixed part.  Its map from
    paths to identifiers is mutable and lives in the [World]. *)
Record DirCache := New { root : string; rootID : string }.
End dircache.

Module fs.
(** [fs.Dir], the directory entry handed to the sink. *)
Record Dir := { Name : string; When : time.Time; Bytes : Z; Count : Z }.

Definition ErrorObjectNotFound : error := errorsNew "object not found".
Definition ErrorDirNotFound : error := errorsNew "directory not found".

(** Modelled from the spec: [fs.ShouldRetryHTTP], which is not part of the
    driver.  Section 4.1: a response is retryable when its HTTP status code
    is in the retry set; without a response there is no status code to look
    at. *)
Definition ShouldRetryHTTP (resp : option http.Response) (retryErrorCodes : list Z) : bool :=
  match resp with
  | None => false
  | Some r => existsb (Z.eqb (http.StatusCode r)) retryErrorCodes
  end.
End fs.

(** ** The driver's own types *)

Record Fs := {
  name : string;
  username : string;
  password : string;
  srv : string;                 (* root URL of the REST client *)
  pacer_ : pacer.Pacer;
  session : UserSessionInfo;
  dirCache : dircache.DirCache
}.

Record Object := {
  fs_ : Fs;
  remote : string;
  id : string;
  modTime : time.Time;
  md5 : string;
  size : Z
}.

(** ** Constants *)

Definition defaultEndpoint : string := "https://dev.opendrive.com/api/v1".
Definition minSleep : time.Duration := (10 * time.Millisecond)%Z.
Definition maxSleep : time.Duration := (5 * time.Minute)%Z.
Definition decayConstant : Z := 1%Z.
Definition maxParts : Z := 10000%Z.
Definition maxVersions : Z := 100%Z.

(** ** The world the driver acts on *)

(** One line per [fs.Debugf] call of the file, with the values it formats. *)
Inductive DebugLine :=
| DebugUser (username : string)
| DebugPass (password : string)
| DebugSession (sessionID : string)
| DebugNewObjectWithInfo (remote : string) (file : option File.t)
| DebugCreateDir (pathID leaf : string)
| DebugFindLeaf (pathID leaf : string)
| DebugListDir (job : dircache.ListDirJob)
| DebugFolder (name folderID : string)
| DebugFile (name fileID : string).

(** What reaches the listing sink [out fs.ListOpts], call by call. *)
Inductive OutEvent :=
| OutAddDir (dir : fs.Dir)
| OutAdd (o : Object)
| OutSetError (err : error).

Record World := {
  debugLog : list DebugLine;
  pacedCalls : list rest.Opts;
  listed : list OutEvent;
  cache : gmap string string
}.

Inductive result (A : Type) :=
| Ok (a : A)
| Panicked (reason : string).
Arguments Ok {A} a.
Arguments Panicked {A} reason.

Definition M (A : Type) : Type := World → result A * World.

#[global] Instance M_ret : MRet M := λ A a w, (Ok a, w).

#[global] Instance M_bind : MBind M := λ A B k m w,
  match m w with
  | (Ok a, w') => k a w'
  | (Panicked reason, w') => (Panicked reason, w')
  end.

Definition panic {A} (reason : string) : M A := λ w, (Panicked reason, w).

Definition Debugf (line : DebugLine) : M unit :=
  λ w, (Ok tt, {| debugLog := debugLog w ++ [line]; pacedCalls := pacedCalls w;
                  listed := listed w; cache := cache w |}).

Definition emit (e : OutEvent) : M unit :=
  λ w, (Ok tt, {| debugLog := debugLog w; pacedCalls := pacedCalls w;
                  listed := listed w ++ [e]; cache := cache w |}).

Definition issue (opts : rest.Opts) : M unit :=
  λ w, (Ok tt, {| debugLog := debugLog w; pacedCalls := pacedCalls w ++ [opts];
                  listed := listed w; cache := cache w |}).

(** The listing sink.  [IncludeDirectory] is the caller's filter;
    [AddDir] answers [true] when the caller wants no descent (it may look at
    what it has received so far). *)
Record ListOpts := {
  IncludeDirectory : string → bool;
  AddDirAborts : list OutEvent → fs.Dir → bool
}.

Definition AddDir (out : ListOpts) (dir : fs.Dir) : M bool :=
  λ w, (Ok (AddDirAborts out (listed w) dir),
        {| debugLog := debugLog w; pacedCalls := pacedCalls w;
           listed := listed w ++ [OutAddDir dir]; cache := cache w |}).

Definition Add (out : ListOpts) (o : Object) : M unit := emit (OutAdd o).
Definition SetError (out : ListOpts) (err : error) : M unit := emit (OutSetError err).

(** What the service and the configuration answer.  [pacedFolderList opts]
    is what [f.pacer.Call] leaves behind around
    [f.srv.CallJSON(&opts, nil, &folderList)]: the final error, once the pacer
    has stopped retrying, and the decoded body.  [pacedLogin] is the same for
    the login call.  The answers are functions of the request alone: every
    method of the driver that would change the service is a stub, so nothing
    the driver does alters what a later listing returns.  [ShouldRetry] is
    [fs.ShouldRetry], the framework's test for network-transport errors;
    [pacerNew] is the pacer [pacer.New()] hands out. *)
Record Remote := {
  ConfigFileGet : string → string → string;
  Reveal : string → string * option error;
  pacerNew : pacer.Pacer;
  pacedLogin : rest.Opts → Account → option error * UserSessionInfo;
  pacedFolderList : rest.Opts → option error * FolderList;
  ShouldRetry : option error → bool
}.

(** Reading and extending the directory cache. *)
Definition getCache : M (gmap string string) := λ w, (Ok (cache w), w).

Definition putCache (path pathID : string) : M unit :=
  λ w, (Ok tt, {| debugLog := debugLog w; pacedCalls := pacedCalls w;
                  listed := listed w; cache := <[path := pathID]> (cache w) |}).

(** Modelled from the spec: [dircache.New], which is not part of the
    driver.  Section 3: the root path always maps to the root identifier
    fixed at construction; nothing else is cached yet. *)
Definition dircacheNew (root rootID : string) : M dircache.DirCache :=
  λ w, (Ok (dircache.New root rootID),
        {| debugLog := debugLog w; pacedCalls := pacedCalls w;
           listed := listed w; cache := {[ "" := rootID ]} |}).

(** ** The driver *)

Section Driver.
Context (R : Remote).

(** [NewFs] constructs an [Fs] from the configuration of remote [name]. *)
Definition NewFs (name root : string) : M (option Fs * option error) :=
  let username := ConfigFileGet R name "username" in
  if String.eqb username "" then
    mret (None, Some (errorsNew "username not found"))
  else
    let '(password, err) := Reveal R (ConfigFileGet R name "password") in
    match err with
    | Some _ => mret (None, Some (errorsNew "password coudl not revealed"))
    | None =>
      if String.eqb password "" then
        mret (None, Some (errorsNew "password not found"))
      else
        Debugf (DebugUser username);;
        Debugf (DebugPass password);;
        let p := pacer.SetDecayConstant decayConstant
                   (pacer.SetMaxSleep maxSleep
                      (pacer.SetMinSleep minSleep (pacerNew R))) in
        dc ← dircacheNew root "0";
        let opts := {| rest.Method := "POST"; rest.Path := "/session/login.json" |} in
        issue opts;;
        let '(err, sess) :=
          pacedLogin R opts {| Username := username; Password := password |} in
        match err with
        | Some e => mret (None, Some (errorsWrap e "failed to create session"))
        | None =>
          Debugf (DebugSession (SessionID sess));;
          mret (Some {| name := name; username := username; password := password;
                        srv := defaultEndpoint; pacer_ := p; session := sess;
                        dirCache := dc |}, None)
        end
    end.

(** [newObjectWithInfo] reads [file.FileID], [file.DateModified] and
    [file.Size] without testing [file]: on a nil [file] Go panics. *)
Definition newObjectWithInfo (f : Fs) (remote : string) (file : option File.t)
  : M (Object * option error) :=
  Debugf (DebugNewObjectWithInfo remote file);;
  match file with
  | None => panic "invalid memory address or nil pointer dereference"
  | Some fl =>
    mret ({| fs_ := f; remote := remote; id := File.FileID fl;
             modTime := time.Unix (File.DateModified fl) 0;
             md5 := ""; size := File.Size fl |}, None)
  end.

Definition NewObject (f : Fs) (remote : string) : M (Object * option error) :=
  newObjectWithInfo f remote None.

(** [retryErrorCodes] is the list of status codes that are retried. *)
Definition retryErrorCodes : list Z := [400; 401; 408; 429; 500; 502; 503; 504]%Z.

(** [shouldRetry] says whether [resp] and [err] deserve a retry and hands
    [err] back. *)
Definition shouldRetry (f : Fs) (resp : option http.Response) (err : option error)
  : bool * option error :=
  (ShouldRetry R err || fs.ShouldRetryHTTP resp retryErrorCodes, err).

(** [CreateDir]: the request is commented out in the Go file; what is left
    logs the call and fails. *)
Definition CreateDir (f : Fs) (pathID leaf : string) : M (string * option error) :=
  Debugf (DebugCreateDir pathID leaf);;
  mret ("", Some (fmtErrorf "CreateDir not implemented")).

(** The two loops of [FindLeaf]: the first entry called [leaf] ends the
    search; every entry looked at is logged. *)
Fixpoint findFolder (leaf : string) (folders : list Folder.t) : M (option string) :=
  match folders with
  | [] => mret None
  | folder :: rest =>
    Debugf (DebugFolder (Folder.Name folder) (Folder.FolderID folder));;
    if String.eqb leaf (Folder.Name folder) then mret (Some (Folder.FolderID folder))
    else findFolder leaf rest
  end.

Fixpoint findFile (leaf : string) (files : list File.t) : M (option string) :=
  match files with
  | [] => mret None
  | file :: rest =>
    Debugf (DebugFile (File.Name file) (File.FileID file));;
    if String.eqb leaf (File.Name file) then mret (Some (File.FileID file))
    else findFile leaf rest
  end.

Definition listOpts (f : Fs) (dirID : string) : rest.Opts :=
  {| rest.Method := "GET";
     rest.Path := "/folder/list.json/" +:+ SessionID (session f) +:+ "/" +:+ dirID |}.

(** [FindLeaf] finds the entry called [leaf] in the folder [pathID]. *)
Definition FindLeaf (f : Fs) (pathID leaf : string) : M (string * bool * option error) :=
  Debugf (DebugFindLeaf pathID leaf);;
  if String.eqb pathID "0" && String.eqb leaf "" then
    mret (pathID, true, None)
  else
    issue (listOpts f pathID);;
    let '(err, folderList) := pacedFolderList R (listOpts f pathID) in
    match err with
    | Some e => mret ("", false, Some (errorsWrap e "failed to get folder list"))
    | None =>
      inFolders ← findFolder leaf (Folders folderList);
      match inFolders with
      | Some folderID => mret (folderID, true, None)
      | None =>
        inFiles ← findFile leaf (Files folderList);
        match inFiles with
        | Some fileID => mret (fileID, true, None)
        | None => mret ("", false, None)
        end
      end
    end.

(** The folder loop of [ListDir]; [jobs] is the slice built so far. *)
Fixpoint listFolders (out : ListOpts) (job : dircache.ListDirJob)
    (folders : list Folder.t) (jobs : list dircache.ListDirJob)
  : M (list dircache.ListDirJob) :=
  match folders with
  | [] => mret jobs
  | folder :: rest =>
    Debugf (DebugFolder (Folder.Name folder) (Folder.FolderID folder));;
    let remote := dircache.Path job +:+ Folder.Name folder in
    if IncludeDirectory out remote then
      abort ← AddDir out {| fs.Name := remote;
                            fs.When := time.Unix (Folder.DateModified folder) 0;
                            fs.Bytes := -1; fs.Count := -1 |};
      if (abort : bool) then listFolders out job rest jobs
      else if (dircache.Depth job >? 0)%Z then
        listFolders out job rest
          (jobs ++ [{| dircache.DirID := Folder.FolderID folder;
                       dircache.Path := remote +:+ "/";
                       dircache.Depth := GoInt.sub (dircache.Depth job) 1 |}])
      else listFolders out job rest jobs
    else listFolders out job rest jobs
  end.

(** The file loop of [ListDir], over the constructor it calls for each
    file. *)
Fixpoint listFiles (newObject : string → File.t → M (Object * option error))
    (out : ListOpts) (job : dircache.ListDirJob) (files : list File.t) : M unit :=
  match files with
  | [] => mret tt
  | file :: rest =>
    Debugf (DebugFile (File.Name file) (File.FileID file));;
    '(o, err) ← newObject (dircache.Path job +:+ File.Name file) file;
    match err with
    | Some e => SetError out e;; listFiles newObject out job rest
    | None => Add out o;; listFiles newObject out job rest
    end
  end.

(** [ListDir] reads the directory of [job] into [out] and returns the jobs
    for its sub-directories. *)
Definition ListDir (f : Fs) (out : ListOpts) (job : dircache.ListDirJob)
  : M (list dircache.ListDirJob * option error) :=
  Debugf (DebugListDir job);;
  issue (listOpts f (dircache.DirID job));;
  let '(err, folderList) := pacedFolderList R (listOpts f (dircache.DirID job)) in
  match err with
  | Some e => mret ([], Some (errorsWrap e "failed to get folder list"))
  | None =>
    jobs ← listFolders out job (Folders folderList) [];
    listFiles (λ remote file, newObjectWithInfo f remote (Some file))
              out job (Files folderList);;
    mret (jobs, None)
  end.

End Driver.

(** ** The path resolver and the enumeration that drive the three methods

    [FindLeaf], [CreateDir] and [ListDir] are the driver's side of package
    [dircache], which calls them to resolve paths and to enumerate
    directories.  The package is not part of the driver; the resolver and the
    enumeration below follow section 4.2 of the specification. *)

Definition slash : Ascii.ascii := Ascii.ascii_of_nat 47.

(** Modelled from the spec: the split of a normalised path at its slashes
    (step 3 of [Resolve]). *)
Fixpoint splitSlash (s : string) : list string :=
  match s with
  | EmptyString => [""]
  | String c s' =>
    if Ascii.eqb c slash then "" :: splitSlash s'
    else match splitSlash s' with
         | [] => [String c ""]
         | seg :: segs => String c seg :: segs
         end
  end.

(** Modelled from the spec: stripping the leading and the trailing slash
    (step 1 of [Resolve]). *)
Definition stripLeadingSlash (s : string) : string :=
  match s with
  | String c s' => if Ascii.eqb c slash then s' else s
  | EmptyString => s
  end.

Fixpoint stripTrailingSlash (s : string) : string :=
  match s with
  | EmptyString => ""
  | String c EmptyString => if Ascii.eqb c slash then "" else s
  | String c s' => String c (stripTrailingSlash s')
  end.

(** Modelled from the spec: path normalisation of [Resolve], step 1 of its
    contract in section 4.2 (strip leading/trailing slash; the empty string is
    the root) and the split into segments of step 3. *)
Definition segments (path : string) : list string :=
  let p := stripTrailingSlash (stripLeadingSlash path) in
  if String.eqb p "" then [] else splitSlash p.

(** Modelled from the spec: the cache key of a prefix, its segments joined
    by [/] (section 3). *)
Definition joinPath (segs : list string) : string := String.concat "/" segs.

(** Modelled from the spec: the nearest cached ancestor of step 3, the
    longest prefix of [segs] (of at most [k] segments) that has a cache
    entry, at minimum the root. *)
Fixpoint nearestCached (c : gmap string string) (rootID : string)
    (segs : list string) (k : nat) : string * nat :=
  match k with
  | O => (rootID, O)
  | S k' =>
    match c !! joinPath (take k segs) with
    | Some pathID => (pathID, k)
    | None => nearestCached c rootID segs k'
    end
  end.

(** Modelled from the spec: the not-found failure of step 4, which names the
    unresolved path. *)
Definition dirNotFound (path : string) : error := errorsWrap fs.ErrorDirNotFound path.

Section Resolver.
Context (R : Remote).

(** Modelled from the spec: steps 3 to 6 of [Resolve].  [resolved] is
    the prefix already resolved to [currentID], [todo] the segments left.
    Each segment goes through [FindLeaf]; a missing one is created with
    [CreateDir] when asked for and is a not-found failure otherwise; every
    resolved prefix is cached before the next segment. *)
Fixpoint walk (f : Fs) (createIfMissing : bool) (currentID : string)
    (resolved todo : list string) : M (string * option error) :=
  match todo with
  | [] => mret (currentID, None)
  | segment :: rest =>
    '(childID, found, err) ← FindLeaf R f currentID segment;
    match err with
    | Some e => mret ("", Some e)
    | None =>
      let prefix := resolved ++ [segment] in
      if (found : bool) then
        putCache (joinPath prefix) childID;;
        walk f createIfMissing childID prefix rest
      else if createIfMissing then
        '(newID, err) ← CreateDir f currentID segment;
        match err with
        | Some e => mret ("", Some e)
        | None =>
          putCache (joinPath prefix) newID;;
          walk f createIfMissing newID prefix rest
        end
      else mret ("", Some (dirNotFound (joinPath prefix)))
    end
  end.

(** Modelled from the spec: [Resolve(path, createIfMissing)] of section
    4.2: a cache hit answers without any call, otherwise the walk starts
    from the nearest cached ancestor. *)
Definition Resolve (dc : dircache.DirCache) (f : Fs) (path : string)
    (createIfMissing : bool) : M (string * option error) :=
  let segs := segments path in
  c ← getCache;
  match c !! joinPath segs with
  | Some pathID => mret (pathID, None)
  | None =>
    let '(startID, k) := nearestCached c (dircache.rootID dc) segs (length segs) in
    walk f createIfMissing startID (take k segs) (drop k segs)
  end.

(** Modelled from the spec: the job loop of [EnumerateRecursive], steps 2
    to 4 of its algorithm in section 4.2.  The queue is first-in first-out;
    a job whose listing fails is reported to the sink's error channel and
    the loop goes on with the rest of the queue.  [fuel] bounds the number
    of jobs taken; the answer is [true] when the queue emptied.  The
    cancellation of section 5 is left out: the sink of the driver answers
    [IncludeDirectory] and [AddDir] and has no way to stop the traversal. *)
Fixpoint runQueue (fuel : nat) (f : Fs) (out : ListOpts)
    (queue : list dircache.ListDirJob) {struct fuel} : M bool :=
  match queue with
  | [] => mret true
  | job :: rest =>
    match fuel with
    | O => mret false
    | S fuel' =>
      '(jobs, err) ← ListDir R f out job;
      match err with
      | Some e => SetError out e;; runQueue fuel' f out rest
      | None => runQueue fuel' f out (rest ++ jobs)
      end
    end
  end.

(** Modelled from the spec: [EnumerateRecursive(startPath, maxDepth, visit)],
    step 1: resolve [startPath] and seed the queue with one job. *)
Definition EnumerateRecursive (fuel : nat) (dc : dircache.DirCache) (f : Fs)
    (out : ListOpts) (startPath : string) (maxDepth : Z) : M (bool * option error) :=
  '(startID, err) ← Resolve dc f startPath false;
  match err with
  | Some e => mret (true, Some e)
  | None =>
    emptied ← runQueue fuel f out
                [{| dircache.DirID := startID; dircache.Path := startPath +:+ "/";
                    dircache.Depth := maxDepth |}];
    mret (emptied, None)
  end.

End Resolver.

(** ** Observations on a world *)

Definition isCreateDir (line : DebugLine) : bool :=
  match line with DebugCreateDir _ _ => true | _ => false end.

(** The calls of [CreateDir] made so far, read off the debug log: the method
    logs its arguments before anything else. *)
Definition createDirCalls (w : World) : list DebugLine :=
  List.filter isCreateDir (debugLog w).

(** The directory entries the sink has been handed. *)
Definition dirsListed (events : list OutEvent) : list fs.Dir :=
  omap (λ e, match e with OutAddDir dir => Some dir | _ => None end) events.

(** The error reports the sink has been handed. *)
Definition errorsListed (events : list OutEvent) : list error :=
  omap (λ e, match e with OutSetError err => Some err | _ => None end) events.

(** The entry and the child job [ListDir] builds for a sub-folder, and the
    object it builds for a file. *)
Definition dirOf (job : dircache.ListDirJob) (folder : Folder.t) : fs.Dir :=
  {| fs.Name := dircache.Path job +:+ Folder.Name folder;
     fs.When := time.Unix (Folder.DateModified folder) 0;
     fs.Bytes := -1; fs.Count := -1 |}.

Definition included (out : ListOpts) (job : dircache.ListDirJob) (folder : Folder.t) : bool :=
  IncludeDirectory out (dircache.Path job +:+ Folder.Name folder).

Definition objectOf (f : Fs) (job : dircache.ListDirJob) (file : File.t) : Object :=
  {| fs_ := f; remote := dircache.Path job +:+ File.Name file; id := File.FileID file;
     modTime := time.Unix (File.DateModified file) 0; md5 := ""; size := File.Size file |}.

(** The child job [ListDir] appends for a sub-folder. *)
Definition childJob (job : dircache.ListDirJob) (folder : Folder.t) : dircache.ListDirJob :=
  {| dircache.DirID := Folder.FolderID folder;
     dircache.Path := (dircache.Path job +:+ Folder.Name folder) +:+ "/";
     dircache.Depth := GoInt.sub (dircache.Depth job) 1 |}.

(** What the two loops of [FindLeaf] compute from a listing: the first
    folder called [leaf], else the first file called [leaf], else nothing. *)
Definition searchListing (leaf : string) (folderList : FolderList)
  : string * bool * option error :=
  match List.find (λ folder, String.eqb leaf (Folder.Name folder)) (Folders folderList) with
  | Some folder => (Folder.FolderID folder, true, None)
  | None =>
    match List.find (λ file, String.eqb leaf (File.Name file)) (Files folderList) with
    | Some file => (File.FileID file, true, None)
    | None => ("", false, None)
    end
  end.

(** [w'] differs from [w] by debug lines only, none of them a [CreateDir]
    call. *)
Definition onlyLogged (w w' : World) : Prop :=
  pacedCalls w' = pacedCalls w ∧ listed w' = listed w ∧ cache w' = cache w ∧
  createDirCalls w' = createDirCalls w.

(** ** Concrete remotes, sinks and worlds *)

Module Sample.
Definition world : World :=
  {| debugLog := []; pacedCalls := []; listed := []; cache := {[ "" := "0" ]} |}.

Definition emptyList : FolderList := {| Folders := []; Files := [] |}.

Definition folderA : Folder.t :=
  {| Folder.FolderID := "1"; Folder.Name := "a"; Folder.DateModified := 5 |}.
Definition folderB : Folder.t :=
  {| Folder.FolderID := "2"; Folder.Name := "b"; Folder.DateModified := 6 |}.
Definition folderC : Folder.t :=
  {| Folder.FolderID := "3"; Folder.Name := "c"; Folder.DateModified := 6 |}.
Definition file1 : File.t :=
  {| File.FileID := "9"; File.Name := "file1"; File.DateModified := 7; File.Size := 3 |}.
Definition fileB : File.t :=
  {| File.FileID := "8"; File.Name := "b"; File.DateModified := 7; File.Size := 4 |}.

(** The tree of the specification's scenario: [/a/b/file1] and an empty
    [/a/c/]; the root has identifier 0. *)
Definition treeList (opts : rest.Opts) : option error * FolderList :=
  if String.eqb (rest.Path opts) "/folder/list.json/S/0" then
    (None, {| Folders := [folderA]; Files := [] |})
  else if String.eqb (rest.Path opts) "/folder/list.json/S/1" then
    (None, {| Folders := [folderB; folderC]; Files := [] |})
  else if String.eqb (rest.Path opts) "/folder/list.json/S/2" then
    (None, {| Folders := []; Files := [file1] |})
  else (None, emptyList).

(** A root holding a file and a folder both called [b], and a file
    [file1]. *)
Definition clashList (opts : rest.Opts) : option error * FolderList :=
  if String.eqb (rest.Path opts) "/folder/list.json/S/0" then
    (None, {| Folders := [folderA; folderB]; Files := [file1; fileB] |})
  else (None, emptyList).

(** The same tree behind a service whose listing of directory 2, [a/b],
    fails. *)
Definition brokenList (opts : rest.Opts) : option error * FolderList :=
  if String.eqb (rest.Path opts) "/folder/list.json/S/2" then
    (Some (errorsNew "unexpected EOF"), emptyList)
  else treeList opts.

Definition remoteWith (list : rest.Opts → option error * FolderList) : Remote :=
  {| ConfigFileGet := λ _ key, if String.eqb key "username" then "user" else "secret";
     Reveal := λ obscured, (obscured, None);
     pacerNew := {| pacer.minSleep := 1%Z; pacer.maxSleep := 2%Z; pacer.decayConstant := 2 |};
     pacedLogin := λ _ _, (None, {| SessionID := "S" |});
     pacedFolderList := list;
     ShouldRetry := λ _, false |}.

Definition tree : Remote := remoteWith treeList.
Definition clash : Remote := remoteWith clashList.
Definition broken : Remote := remoteWith brokenList.

Definition dc : dircache.DirCache := dircache.New "" "0".

Definition f : Fs :=
  {| name := "remote"; username := "user"; password := "secret";
     srv := defaultEndpoint;
     pacer_ := {| pacer.minSleep := minSleep; pacer.maxSleep := maxSleep;
                  pacer.decayConstant := decayConstant |};
     session := {| SessionID := "S" |}; dirCache := dc |}.

(** A sink that takes everything, and one whose filter excludes every
    directory. *)
Definition acceptAll : ListOpts :=
  {| IncludeDirectory := λ _, true; AddDirAborts := λ _ _, false |}.
Definition excludeAll : ListOpts :=
  {| IncludeDirectory := λ _, false; AddDirAborts := λ _ _, false |}.

Definition rootJob (depth : Z) : dircache.ListDirJob :=
  {| dircache.DirID := "0"; dircache.Path := ""; dircache.Depth := depth |}.

(** A constructor that fails on files called [b]. *)
Definition failOnB (f : Fs) (remote : string) (file : File.t) : M (Object * option error) :=
  if String.eqb (File.Name file) "b" then
    mret (objectOf f (rootJob 0) file, Some (errorsNew "bad entry"))
  else newObjectWithInfo f remote (Some file).
End Sample.

(** ** The rest of the driver

    The readers of [*Fs] and [*Object]: they neither log nor call the
    service.  A method of [*Object] takes its receiver as [option Object]:
    [String] tests it against nil, the others read its fields. *)

Definition nilDereference : string := "invalid memory address or nil pointer dereference".

(** [Name] of the remote, as passed into [NewFs]. *)
Definition Fs_Name (f : Fs) : string := name f.

(** [Root] of the remote. *)
Definition Fs_Root (f : Fs) : string := "/".

(** [Fs] returns the parent [Fs]. *)
Definition Object_Fs (o : option Object) : result Fs :=
  match o with
  | None => Panicked nilDereference
  | Some obj => Ok (fs_ obj)
  end.

(** [String] returns a string version. *)
Definition Object_String (o : option Object) : result string :=
  match o with
  | None => Ok "<nil>"
  | Some obj => Ok (remote obj)
  end.

(** [Remote] returns the remote path. *)
Definition Object_Remote (o : option Object) : result string :=
  match o with
  | None => Panicked nilDereference
  | Some obj => Ok (remote obj)
  end.

(** [Size] returns the size of an object in bytes. *)
Definition Object_Size (o : option Object) : result Z :=
  match o with
  | None => Panicked nilDereference
  | Some obj => Ok (size obj)
  end.

(** [ModTime] returns the modification time of the object. *)
Definition Object_ModTime (o : option Object) : result time.Time :=
  match o with
  | None => Panicked nilDereference
  | Some obj => Ok (modTime obj)
  end.

(** The constants of package [fs] that the hash methods name; the package is
    not part of the driver, so they are parameters. *)
Section ObjectInfo.
Context (HashMD5 : Z) (ErrHashUnsupported : error).

(** [Hashes] returns the supported hash set: the conversion of [fs.HashMD5]
    to a [fs.HashSet]. *)
Definition Fs_Hashes (f : Fs) : Z := HashMD5.

(** [Hash] returns the MD5 sum of an object. *)
Definition Object_Hash (o : option Object) (t : Z) : result (string * option error) :=
  if negb (Z.eqb t HashMD5) then Ok ("", Some ErrHashUnsupported)
  else match o with
       | None => Panicked nilDereference
       | Some obj => Ok (md5 obj, None)
       end.

End ObjectInfo.

(** ** Further observations *)

(** The objects the sink has been handed. *)
Definition objectsListed (events : list OutEvent) : list Object :=
  omap (λ e, match e with OutAdd o => Some o | _ => None end) events.

(** The name an entry reaches the sink under; an error report has none. *)
Definition entryName (e : OutEvent) : option string :=
  match e with
  | OutAddDir dir => Some (fs.Name dir)
  | OutAdd o => Some (remote o)
  | OutSetError _ => None
  end.

(** The login request of [NewFs] and what its configuration gives. *)
Definition loginOpts : rest.Opts :=
  {| rest.Method := "POST"; rest.Path := "/session/login.json" |}.

Definition configuredAccount (R : Remote) (name : string) : Account :=
  {| Username := ConfigFileGet R name "username";
     Password := (Reveal R (ConfigFileGet R name "password")).1 |}.

(** The configuration of remote [name] passes the three checks of [NewFs]:
    a user name, a password that can be revealed, and a non-empty one. *)
Definition credentialsOk (R : Remote) (name : string) : Prop :=
  ConfigFileGet R name "username" ≠ ""
  ∧ (Reveal R (ConfigFileGet R name "password")).2 = None
  ∧ (Reveal R (ConfigFileGet R name "password")).1 ≠ "".

(** The root shortcut of [FindLeaf]. *)
Definition isRootLookup (pathID leaf : string) : Prop := pathID = "0" ∧ leaf = "".


(** The body of [ListDir] around the constructor it calls for each file:
    [ListDir] is [ListDirWith] at [f.newObjectWithInfo(remote, &file)]. *)
Definition ListDirWith (newObject : string → File.t → M (Object * option error))
    (R : Remote) (f : Fs) (out : ListOpts) (job : dircache.ListDirJob)
  : M (list dircache.ListDirJob * option error) :=
  Debugf (DebugListDir job);;
  issue (listOpts f (dircache.DirID job));;
  let '(err, folderList) := pacedFolderList R (listOpts f (dircache.DirID job)) in
  match err with
  | Some e => mret ([], Some (errorsWrap e "failed to get folder list"))
  | None =>
    jobs ← listFolders out job (Folders folderList) [];
    listFiles newObject out job (Files folderList);;
    mret (jobs, None)
  end.



(** ** Further concrete remotes, sinks and listings *)

Module Sample2.
(** A configuration without a user name. *)
Definition noUser : Remote :=
  {| ConfigFileGet := λ _ _, "";
     Reveal := λ obscured, (obscured, None);
     pacerNew := pacerNew Sample.tree;
     pacedLogin := pacedLogin Sample.tree;
     pacedFolderList := pacedFolderList Sample.tree;
     ShouldRetry := ShouldRetry Sample.tree |}.

(** A service that refuses the login. *)
Definition loginFails : Remote :=
  {| ConfigFileGet := ConfigFileGet Sample.tree;
     Reveal := Reveal Sample.tree;
     pacerNew := pacerNew Sample.tree;
     pacedLogin := λ _ _, (Some (errorsNew "401 Unauthorized"), {| SessionID := "" |});
     pacedFolderList := pacedFolderList Sample.tree;
     ShouldRetry := ShouldRetry Sample.tree |}.

(** The [Fs] that [NewFs] builds for the sample configuration and a given
    root. *)
Definition fsAt (root : string) : Fs :=
  {| name := "remote"; username := "user"; password := "secret";
     srv := defaultEndpoint;
     pacer_ := {| pacer.minSleep := minSleep; pacer.maxSleep := maxSleep;
                  pacer.decayConstant := decayConstant |};
     session := {| SessionID := "S" |}; dirCache := dircache.New root "0" |}.

(** Two folders called [a], with identifiers 1 and 4, and two files called
    [file1], with identifiers 9 and 7. *)
Definition folderA' : Folder.t :=
  {| Folder.FolderID := "4"; Folder.Name := "a"; Folder.DateModified := 8 |}.
Definition file1' : File.t :=
  {| File.FileID := "7"; File.Name := "file1"; File.DateModified := 2; File.Size := 0 |}.
Definition twins : Remote :=
  Sample.remoteWith (λ _, (None, {| Folders := [Sample.folderB; Sample.folderA; folderA'];
                                    Files := [Sample.file1; file1'] |})).

(** A service that is down. *)
Definition down : Remote :=
  Sample.remoteWith (λ _, (Some (errorsNew "connection refused"), Sample.emptyList)).

(** A sink that takes every directory but wants no descent into [a/b]. *)
Definition rejectsAB (dir : fs.Dir) : bool := String.eqb (fs.Name dir) "a/b".
Definition noDescentAB : ListOpts :=
  {| IncludeDirectory := λ _, true; AddDirAborts := λ _ dir, rejectsAB dir |}.

Definition jobA (depth : Z) : dircache.ListDirJob :=
  {| dircache.DirID := "1"; dircache.Path := "a/"; dircache.Depth := depth |}.


(** A root with the files [file1], [b] and a second [file1], in that order. *)
Definition mixed : Remote :=
  Sample.remoteWith (λ _, (None, {| Folders := [];
                                    Files := [Sample.file1; Sample.fileB; file1'] |})).
End Sample2.

(** * Properties *)

(** ** Running the monad *)



Lemma createDirCalls_log (w : World) (line : DebugLine) :
  isCreateDir line = false →
  createDirCalls ((Debugf line w).2) = createDirCalls w.
Proof.
  intros Hline. unfold createDirCalls. simpl.
  rewrite List.filter_app. simpl. rewrite Hline. apply app_nil_r.
Qed.

Lemma onlyLogged_refl (w : World) : onlyLogged w w.
Proof. repeat split. Qed.

Lemma onlyLogged_trans (w1 w2 w3 : World) :
  onlyLogged w1 w2 → onlyLogged w2 w3 → onlyLogged w1 w3.
Proof.
  intros (Hp & Hl & Hc & Hd) (Hp' & Hl' & Hc' & Hd').
  repeat split; congruence.
Qed.

Lemma onlyLogged_Debugf (w : World) (line : DebugLine) :
  isCreateDir line = false → onlyLogged w (Debugf line w).2.
Proof.
  intros Hline. repeat split. by apply createDirCalls_log.
Qed.

Ltac run := unfold mbind, M_bind, mret, M_ret; simpl.

Lemma findFolder_run (leaf : string) (folders : list Folder.t) (w : World) :
  ∃ w', findFolder leaf folders w =
          (Ok (Folder.FolderID <$> List.find (λ fo, String.eqb leaf (Folder.Name fo)) folders), w')
        ∧ onlyLogged w w'.
Proof.
  revert w. induction folders as [|folder rest IH]; intros w.
  - exists w. split; [reflexivity | apply onlyLogged_refl].
  - simpl. run.
    destruct (String.eqb leaf (Folder.Name folder)).
    + eexists. split; [reflexivity |]. by apply onlyLogged_Debugf.
    + destruct (IH (Debugf (DebugFolder (Folder.Name folder) (Folder.FolderID folder)) w).2)
        as (w' & Hrun & Hlog).
      exists w'. split; [exact Hrun |].
      eapply onlyLogged_trans; [|exact Hlog]. by apply onlyLogged_Debugf.
Qed.

Lemma findFile_run (leaf : string) (files : list File.t) (w : World) :
  ∃ w', findFile leaf files w =
          (Ok (File.FileID <$> List.find (λ fi, String.eqb leaf (File.Name fi)) files), w')
        ∧ onlyLogged w w'.
Proof.
  revert w. induction files as [|file rest IH]; intros w.
  - exists w. split; [reflexivity | apply onlyLogged_refl].
  - simpl. run.
    destruct (String.eqb leaf (File.Name file)).
    + eexists. split; [reflexivity |]. by apply onlyLogged_Debugf.
    + destruct (IH (Debugf (DebugFile (File.Name file) (File.FileID file)) w).2)
        as (w' & Hrun & Hlog).
      exists w'. split; [exact Hrun |].
      eapply onlyLogged_trans; [|exact Hlog]. by apply onlyLogged_Debugf.
Qed.

Lemma shortcut_false (pathID leaf : string) :
  ¬ (pathID = "0" ∧ leaf = "") → String.eqb pathID "0" && String.eqb leaf "" = false.
Proof.
  intros Hne. apply andb_false_iff.
  destruct (String.eqb_spec pathID "0") as [-> | ?]; [| by left].
  destruct (String.eqb_spec leaf "") as [-> | ?]; [| by right].
  by destruct Hne.
Qed.

(** Past the root shortcut and a listing that came back, [FindLeaf] is the
    search of the listing; it issues the one listing call. *)
Lemma FindLeaf_run (R : Remote) (f : Fs) (pathID leaf : string) (fl : FolderList) (w : World) :
  ¬ (pathID = "0" ∧ leaf = "") →
  pacedFolderList R (listOpts f pathID) = (None, fl) →
  ∃ w', FindLeaf R f pathID leaf w = (Ok (searchListing leaf fl), w')
        ∧ pacedCalls w' = pacedCalls w ++ [listOpts f pathID]
        ∧ listed w' = listed w ∧ cache w' = cache w
        ∧ createDirCalls w' = createDirCalls w.
Proof.
  intros Hroot Hlist. unfold FindLeaf, searchListing. run.
  rewrite (shortcut_false _ _ Hroot), Hlist.
  match goal with |- context [findFolder leaf _ ?w0] =>
    destruct (findFolder_run leaf (Folders fl) w0) as (w1 & -> & Hp1 & Hl1 & Hc1 & Hd1)
  end.
  destruct (List.find _ (Folders fl)) as [folder|]; simpl.
  { eexists. split; [reflexivity|]. rewrite Hp1, Hl1, Hc1, Hd1. repeat split.
    by apply createDirCalls_log. }
  destruct (findFile_run leaf (Files fl) w1) as (w2 & -> & Hp2 & Hl2 & Hc2 & Hd2).
  destruct (List.find _ (Files fl)) as [file|]; simpl;
    (eexists; split; [reflexivity|]; rewrite Hp2, Hl2, Hc2, Hd2, Hp1, Hl1, Hc1, Hd1;
     repeat split; by apply createDirCalls_log).
Qed.





Lemma find_named {A} (nameOf : A → string) (leaf : string) (l : list A) :
  (∃ x, x ∈ l ∧ nameOf x = leaf) →
  ∃ x, List.find (λ y, String.eqb leaf (nameOf y)) l = Some x ∧ x ∈ l ∧ nameOf x = leaf.
Proof.
  intros (x & Hin & Hname).
  destruct (List.find (λ y, String.eqb leaf (nameOf y)) l) as [y|] eqn:Hfind.
  - exists y. apply List.find_some in Hfind as [Hy Heq].
    apply String.eqb_eq in Heq. apply list_elem_of_In in Hy. by repeat split.
  - apply list_elem_of_In in Hin.
    pose proof (List.find_none _ _ Hfind x Hin) as Hx. simpl in Hx.
    rewrite Hname, String.eqb_refl in Hx. discriminate.
Qed.

Lemma find_unnamed {A} (nameOf : A → string) (leaf : string) (l : list A) :
  (∀ x, x ∈ l → nameOf x ≠ leaf) →
  List.find (λ y, String.eqb leaf (nameOf y)) l = None.
Proof.
  intros Hnone.
  destruct (List.find _ l) as [y|] eqn:Hfind; [|reflexivity].
  apply List.find_some in Hfind as [Hy Heq].
  apply String.eqb_eq in Heq. apply list_elem_of_In in Hy.
  by destruct (Hnone y Hy).
Qed.

(** The folder loop: what it emits is fixed by the filter alone; the jobs it
    adds come from folders the filter lets through, and there are none at
    depth 0 or below. *)
Lemma listFolders_run (out : ListOpts) (job : dircache.ListDirJob)
    (folders : list Folder.t) (jobs : list dircache.ListDirJob) (w : World) :
  ∃ added w',
    listFolders out job folders jobs w = (Ok (jobs ++ added), w')
    ∧ listed w' = listed w ++
        List.map OutAddDir (List.map (dirOf job) (List.filter (included out job) folders))
    ∧ pacedCalls w' = pacedCalls w ∧ cache w' = cache w
    ∧ createDirCalls w' = createDirCalls w
    ∧ Forall (λ j, ∃ folder, folder ∈ folders ∧ included out job folder = true
                             ∧ j = childJob job folder) added
    ∧ ((dircache.Depth job ≤ 0)%Z → added = []).
Proof.
  revert jobs w. induction folders as [|folder rest IH]; intros jobs w.
  { exists [], w. rewrite !app_nil_r. by repeat split. }
  simpl. run. fold (included out job folder).
  set (w1 := {| debugLog := debugLog w ++ [_] |}).
  assert (Hd1 : createDirCalls w1 = createDirCalls w)
    by (apply (createDirCalls_log w (DebugFolder _ _)); reflexivity).
  destruct (included out job folder) eqn:Hinc.
  - set (w2 := {| debugLog := debugLog w1; listed := listed w1 ++ [_] |}).
    assert (Hd2 : createDirCalls w2 = createDirCalls w) by exact Hd1.
    destruct (AddDirAborts out (listed w1) _).
    + destruct (IH jobs w2) as (added & w' & -> & Hl & Hp & Hc & Hd & Hall & Hzero).
      exists added, w'. split; [reflexivity|].
      rewrite Hl, Hp, Hc, Hd. simpl. rewrite <- app_assoc. repeat split; try done.
      eapply Forall_impl; [exact Hall|]. intros j (fo & Hin & Hfo & Hj).
      exists fo. split; [by right | by split].
    + destruct (Z.gtb_spec (dircache.Depth job) 0) as [Hpos|Hnonpos].
      * destruct (IH (jobs ++ [childJob job folder]) w2)
          as (added & w' & Hrun & Hl & Hp & Hc & Hd & Hall & Hzero).
        exists (childJob job folder :: added), w'.
        split. { etransitivity; [exact Hrun|]. by rewrite <- app_assoc. }
        rewrite Hl, Hp, Hc, Hd. simpl. rewrite <- app_assoc. repeat split; try done.
        -- constructor.
           ++ exists folder. split; [by left | by split].
           ++ eapply Forall_impl; [exact Hall|]. intros j (fo & Hin & Hfo & Hj).
              exists fo. split; [by right | by split].
        -- intros Hle. lia.
      * destruct (IH jobs w2) as (added & w' & -> & Hl & Hp & Hc & Hd & Hall & Hzero).
        exists added, w'. split; [reflexivity|].
        rewrite Hl, Hp, Hc, Hd. simpl. rewrite <- app_assoc. repeat split; try done.
        eapply Forall_impl; [exact Hall|]. intros j (fo & Hin & Hfo & Hj).
        exists fo. split; [by right | by split].
  - destruct (IH jobs w1) as (added & w' & -> & Hl & Hp & Hc & Hd & Hall & Hzero).
    exists added, w'. split; [reflexivity|].
    rewrite Hl, Hp, Hc, Hd. repeat split; try done.
    eapply Forall_impl; [exact Hall|]. intros j (fo & Hin & Hfo & Hj).
    exists fo. split; [by right | by split].
Qed.

(** The file loop with the constructor of the Go file: [&file] is never nil,
    so every file becomes an object and reaches the sink. *)
Lemma listFiles_run (f : Fs) (out : ListOpts) (job : dircache.ListDirJob)
    (files : list File.t) (w : World) :
  ∃ w', listFiles (λ remote file, newObjectWithInfo f remote (Some file)) out job files w
          = (Ok tt, w')
        ∧ listed w' = listed w ++ List.map OutAdd (List.map (objectOf f job) files)
        ∧ pacedCalls w' = pacedCalls w ∧ cache w' = cache w
        ∧ createDirCalls w' = createDirCalls w.
Proof.
  revert w. induction files as [|file rest IH]; intros w.
  { exists w. rewrite app_nil_r. by repeat split. }
  simpl. run.
  match goal with |- context [listFiles _ out job rest ?w0] =>
    destruct (IH w0) as (w' & -> & Hl & Hp & Hc & Hd)
  end.
  exists w'. split; [reflexivity|]. rewrite Hl, Hp, Hc, Hd. simpl.
  rewrite <- app_assoc. repeat split.
  unfold createDirCalls. simpl. rewrite <- app_assoc, List.filter_app. simpl.
  apply app_nil_r.
Qed.

Lemma ListDir_ok (R : Remote) (f : Fs) (out : ListOpts) (job : dircache.ListDirJob)
    (fl : FolderList) (w : World) :
  pacedFolderList R (listOpts f (dircache.DirID job)) = (None, fl) →
  ∃ jobs w',
    ListDir R f out job w = (Ok (jobs, None), w')
    ∧ listed w' = listed w
        ++ List.map OutAddDir (List.map (dirOf job) (List.filter (included out job) (Folders fl)))
        ++ List.map OutAdd (List.map (objectOf f job) (Files fl))
    ∧ pacedCalls w' = pacedCalls w ++ [listOpts f (dircache.DirID job)]
    ∧ cache w' = cache w
    ∧ createDirCalls w' = createDirCalls w
    ∧ Forall (λ j, ∃ folder, folder ∈ Folders fl ∧ included out job folder = true
                             ∧ j = childJob job folder) jobs
    ∧ ((dircache.Depth job ≤ 0)%Z → jobs = []).
Proof.
  intros Hlist. unfold ListDir. run. rewrite Hlist.
  match goal with |- context [listFolders out job _ [] ?w0] =>
    destruct (listFolders_run out job (Folders fl) [] w0)
      as (jobs & w1 & -> & Hl1 & Hp1 & Hc1 & Hd1 & Hall & Hzero)
  end.
  destruct (listFiles_run f out job (Files fl) w1) as (w2 & -> & Hl2 & Hp2 & Hc2 & Hd2).
  exists jobs, w2. split; [reflexivity|].
  rewrite Hl2, Hp2, Hc2, Hd2, Hl1, Hp1, Hc1, Hd1. simpl. rewrite <- app_assoc.
  repeat split; try done.
  unfold createDirCalls. simpl. rewrite List.filter_app. simpl. apply app_nil_r.
Qed.

Lemma ListDir_err (R : Remote) (f : Fs) (out : ListOpts) (job : dircache.ListDirJob)
    (e : error) (fl : FolderList) (w : World) :
  pacedFolderList R (listOpts f (dircache.DirID job)) = (Some e, fl) →
  ∃ w', ListDir R f out job w = (Ok ([], Some (errorsWrap e "failed to get folder list")), w')
        ∧ listed w' = listed w
        ∧ pacedCalls w' = pacedCalls w ++ [listOpts f (dircache.DirID job)]
        ∧ cache w' = cache w
        ∧ createDirCalls w' = createDirCalls w.
Proof.
  intros Hlist. unfold ListDir. run. rewrite Hlist.
  eexists. split; [reflexivity|]. simpl. repeat split.
  unfold createDirCalls. simpl. rewrite List.filter_app. simpl. apply app_nil_r.
Qed.


Lemma wrap_pred (d : Z) :
  (0 < d)%Z → GoInt.inRange d → GoInt.sub d 1 = (d - 1)%Z.
Proof.
  unfold GoInt.inRange, GoInt.min, GoInt.max, GoInt.sub, GoInt.wrap.
  intros Hpos [_ Hmax]. rewrite Z.mod_small; lia.
Qed.

(** What the sink was handed, by kind of entry. *)
Lemma dirsListed_app (es1 es2 : list OutEvent) :
  dirsListed (es1 ++ es2) = dirsListed es1 ++ dirsListed es2.
Proof. apply omap_app. Qed.

Lemma dirsListed_AddDir (dirs : list fs.Dir) : dirsListed (List.map OutAddDir dirs) = dirs.
Proof. induction dirs as [|dir dirs IH]; simpl; [reflexivity | by rewrite IH]. Qed.

Lemma dirsListed_Add (objects : list Object) : dirsListed (List.map OutAdd objects) = [].
Proof. induction objects as [|o objects IH]; simpl; [reflexivity | exact IH]. Qed.

(** ** Path normalisation on examples *)

Example segments_xy : segments "x/y" = ["x"; "y"].
Proof. reflexivity. Qed.
Example segments_root : segments "/" = [].
Proof. reflexivity. Qed.
Example segments_abc : segments "/a/bc/" = ["a"; "bc"].
Proof. reflexivity. Qed.

(** ** Retry classification *)

(** C3. [shouldRetry] hands the error back and asks for a retry exactly when
    the error is a network-transport error ([fs.ShouldRetry]) or there is a
    response whose HTTP status code is one of 400, 401, 408, 429, 500, 502,
    503, 504; every other pair is not retried. *)
Theorem shouldRetry_exactly_transport_or_retry_code (R : Remote) (f : Fs)
    (resp : option http.Response) (err : option error) :
  (shouldRetry R f resp err).2 = err ∧
  ((shouldRetry R f resp err).1 = true ↔
     ShouldRetry R err = true ∨
     ∃ r, resp = Some r ∧
          (http.StatusCode r = 400 ∨ http.StatusCode r = 401 ∨ http.StatusCode r = 408 ∨
           http.StatusCode r = 429 ∨ http.StatusCode r = 500 ∨ http.StatusCode r = 502 ∨
           http.StatusCode r = 503 ∨ http.StatusCode r = 504)%Z).
Proof.
  split; [reflexivity|]. unfold shouldRetry. simpl. rewrite orb_true_iff.
  apply or_iff_compat_l. unfold fs.ShouldRetryHTTP, retryErrorCodes.
  destruct resp as [r|]; simpl.
  - rewrite !orb_true_iff, !Z.eqb_eq. split.
    + intros Hcode. exists r. split; [reflexivity|]. intuition discriminate.
    + intros (r' & [= <-] & Hcode). intuition.
  - split; [discriminate|]. by intros (r & ? & _).
Qed.

(** ** Construction *)

(** C8. Every [Fs] that [NewFs] returns has a pacer configured with
    [minSleep] = 10 ms, [maxSleep] = 5 min and [decayConstant] = 1, whatever
    pacer [pacer.New] started from. *)
Theorem NewFs_configures_pacer (R : Remote) (name root : string) (w w' : World)
    (f : Fs) (err : option error) :
  NewFs R name root w = (Ok (Some f, err), w') →
  pacer.minSleep (pacer_ f) = (10 * time.Millisecond)%Z ∧
  pacer.minSleep (pacer_ f) = 10000000%Z ∧
  pacer.maxSleep (pacer_ f) = (5 * time.Minute)%Z ∧
  pacer.maxSleep (pacer_ f) = 300000000000%Z ∧
  pacer.decayConstant (pacer_ f) = 1%Z.
Proof.
  unfold NewFs. run.
  destruct (String.eqb (ConfigFileGet R name "username") ""); [discriminate|].
  destruct (Reveal R _) as [password [e|]]; [discriminate|].
  destruct (String.eqb password ""); [discriminate|].
  run. destruct (pacedLogin R _ _) as [[e|] sess]; [discriminate|].
  intros [= <- _ _]. simpl. by repeat split.
Qed.

Lemma NewFs_configures_pacer_witness :
  NewFs Sample.tree "remote" "" Sample.world
    = (Ok (Some Sample.f, None),
       (NewFs Sample.tree "remote" "" Sample.world).2) ∧
  pacer.minSleep (pacer_ Sample.f) = 10000000%Z ∧
  pacer.maxSleep (pacer_ Sample.f) = 300000000000%Z ∧
  pacer.decayConstant (pacer_ Sample.f) = 1%Z.
Proof.
  assert (Hrun : NewFs Sample.tree "remote" "" Sample.world
                 = (Ok (Some Sample.f, None),
                    (NewFs Sample.tree "remote" "" Sample.world).2))
    by reflexivity.
  split; [exact Hrun|].
  destruct (NewFs_configures_pacer _ _ _ _ _ _ _ Hrun) as (_ & Hmin & _ & Hmax & Hdecay).
  repeat split; assumption.
Defined.

(** ** Objects *)

(** C9. [newObjectWithInfo] returns exactly when its [file] is not nil: it
    dereferences [file] without a test.  [NewObject] passes nil, so for every
    remote path it ends in the nil-dereference panic and returns nothing,
    in particular never the not-found error. *)
Theorem NewObject_dereferences_nil (f : Fs) (remote : string) (w : World) :
  (∀ file, (∃ r, (newObjectWithInfo f remote file w).1 = Ok r) ↔ file ≠ None) ∧
  (NewObject f remote w).1 = Panicked "invalid memory address or nil pointer dereference" ∧
  (∀ o, (NewObject f remote w).1 ≠ Ok (o, Some fs.ErrorObjectNotFound)).
Proof.
  split; [|split].
  - intros [file|]; simpl; split.
    + done.
    + intros _. eexists. reflexivity.
    + intros [r Hr]. discriminate Hr.
    + done.
  - reflexivity.
  - intros o. discriminate.
Qed.

(** ** Listing jobs *)

(** C2. Whatever [ListDir] is given, it returns; every child job it hands
    back has the depth of the processed job minus one, and a job of depth 0
    hands back none. *)
Theorem ListDir_child_depth (R : Remote) (f : Fs) (out : ListOpts)
    (job : dircache.ListDirJob) (w : World) :
  GoInt.inRange (dircache.Depth job) →
  ∃ jobs err w',
    ListDir R f out job w = (Ok (jobs, err), w')
    ∧ Forall (λ j, dircache.Depth j = (dircache.Depth job - 1)%Z) jobs
    ∧ (dircache.Depth job = 0%Z → jobs = []).
Proof.
  intros Hrange.
  destruct (pacedFolderList R (listOpts f (dircache.DirID job))) as [[e|] fl] eqn:Hlist.
  { destruct (ListDir_err R f out job e fl w Hlist) as (w' & Hrun & _).
    exists [], (Some (errorsWrap e "failed to get folder list")), w'.
    by repeat split. }
  destruct (ListDir_ok R f out job fl w Hlist)
    as (jobs & w' & Hrun & _ & _ & _ & _ & Hall & Hzero).
  exists jobs, None, w'. split; [exact Hrun|]. split.
  - destruct (Z_le_gt_dec (dircache.Depth job) 0) as [Hle|Hgt].
    + rewrite (Hzero Hle). constructor.
    + eapply Forall_impl; [exact Hall|]. intros j (folder & _ & _ & ->). simpl.
      apply wrap_pred; [lia | exact Hrange].
  - intros Hdepth. apply Hzero. lia.
Qed.

Lemma ListDir_child_depth_witness :
  GoInt.inRange (dircache.Depth (Sample.rootJob 3)) ∧
  ∃ jobs err w',
    ListDir Sample.tree Sample.f Sample.acceptAll (Sample.rootJob 3) Sample.world
      = (Ok (jobs, err), w')
    ∧ Forall (λ j, dircache.Depth j = (dircache.Depth (Sample.rootJob 3) - 1)%Z) jobs
    ∧ (dircache.Depth (Sample.rootJob 3) = 0%Z → jobs = []).
Proof.
  assert (Hrange : GoInt.inRange (dircache.Depth (Sample.rootJob 3)))
    by (unfold GoInt.inRange, GoInt.min, GoInt.max; simpl; lia).
  split; [exact Hrange|].
  exact (ListDir_child_depth Sample.tree Sample.f Sample.acceptAll (Sample.rootJob 3)
           Sample.world Hrange).
Defined.

Example ListDir_depth_3 :
  (ListDir Sample.tree Sample.f Sample.acceptAll (Sample.rootJob 3) Sample.world).1
  = Ok ([{| dircache.DirID := "1"; dircache.Path := "a/"; dircache.Depth := 2 |}], None).
Proof. reflexivity. Qed.

Example ListDir_depth_0 :
  (ListDir Sample.tree Sample.f Sample.acceptAll (Sample.rootJob 0) Sample.world).1
  = Ok ([], None).
Proof. reflexivity. Qed.




Example EnumerateRecursive_depth_5 :
  List.map fs.Name
    (dirsListed (listed (EnumerateRecursive Sample.tree 10 Sample.dc Sample.f
                           Sample.acceptAll "" 5 Sample.world).2))
  = ["/a"; "/a/b"; "/a/c"].
Proof. reflexivity. Qed.

(** C6, as the code has it.  When the listing comes back, the directories
    [ListDir] hands to the sink are exactly the sub-folders that pass
    [out.IncludeDirectory], in listing order: a folder the filter rejects is
    neither emitted nor descended into.  What [out.AddDir] answers decides
    only whether a child job is appended: two sinks with the same filter
    receive the same entries, and every child job comes from an emitted
    folder. *)
Theorem ListDir_emits_included_directories (R : Remote) (f : Fs) (out : ListOpts)
    (job : dircache.ListDirJob) (fl : FolderList) (w : World) :
  pacedFolderList R (listOpts f (dircache.DirID job)) = (None, fl) →
  ∃ jobs w',
    ListDir R f out job w = (Ok (jobs, None), w')
    ∧ dirsListed (listed w') =
        dirsListed (listed w)
        ++ List.map (dirOf job) (List.filter (included out job) (Folders fl))
    ∧ Forall (λ j, ∃ folder, folder ∈ Folders fl ∧ included out job folder = true
                             ∧ j = childJob job folder) jobs
    ∧ (∀ out', (∀ remote, IncludeDirectory out' remote = IncludeDirectory out remote) →
               listed (ListDir R f out' job w).2 = listed w').
Proof.
  intros Hlist.
  destruct (ListDir_ok R f out job fl w Hlist)
    as (jobs & w' & Hrun & Hl & _ & _ & _ & Hall & _).
  exists jobs, w'. split; [exact Hrun|]. split; [|split; [exact Hall|]].
  - rewrite Hl, !dirsListed_app, dirsListed_AddDir, dirsListed_Add. by rewrite app_nil_r.
  - intros out' Hsame.
    destruct (ListDir_ok R f out' job fl w Hlist) as (jobs' & w'' & Hrun' & Hl' & _).
    rewrite Hrun'. simpl. rewrite Hl', Hl.
    rewrite (List.filter_ext (included out' job) (included out job)); [reflexivity|].
    intros folder. unfold included. apply Hsame.
Qed.

Lemma ListDir_emits_included_directories_witness :
  pacedFolderList Sample.tree (listOpts Sample.f (dircache.DirID (Sample.rootJob 1)))
    = (None, {| Folders := [Sample.folderA]; Files := [] |}) ∧
  ∃ jobs w',
    ListDir Sample.tree Sample.f Sample.excludeAll (Sample.rootJob 1) Sample.world
      = (Ok (jobs, None), w')
    ∧ dirsListed (listed w') = dirsListed (listed Sample.world) ++ [].
Proof.
  assert (Hlist : pacedFolderList Sample.tree
                    (listOpts Sample.f (dircache.DirID (Sample.rootJob 1)))
                  = (None, {| Folders := [Sample.folderA]; Files := [] |}))
    by reflexivity.
  split; [exact Hlist|].
  destruct (ListDir_emits_included_directories Sample.tree Sample.f Sample.excludeAll
              (Sample.rootJob 1) _ Sample.world Hlist) as (jobs & w' & Hrun & Hdirs & _).
  exists jobs, w'. split; [exact Hrun | exact Hdirs].
Defined.

(** C6, refuted as stated.  The root lists folder [a]; a sink whose filter
    rejects it is handed no directory at all: the rejection also suppresses
    the entry, not only the descent. *)
Lemma ListDir_rejected_directory_counterexample :
  Sample.folderA ∈ Folders (Sample.treeList (listOpts Sample.f "0")).2 ∧
  (ListDir Sample.tree Sample.f Sample.excludeAll (Sample.rootJob 1) Sample.world).1
    = Ok ([], None) ∧
  dirsListed
    (listed (ListDir Sample.tree Sample.f Sample.excludeAll (Sample.rootJob 1)
               Sample.world).2) = [].
Proof.
  split; [by left|]. split; reflexivity.
Qed.

(** ** Failures while listing *)




(** A constructor that fails on the files called [b]: the second of three
    files is reported through [SetError] and the third is still added. *)
Example ListDirWith_failing_constructor :
  List.map entryName
    (listed (ListDirWith (Sample.failOnB Sample.f) Sample2.mixed Sample.f Sample.acceptAll
               (Sample.rootJob 0) Sample.world).2)
  = [Some "file1"; None; Some "file1"] ∧
  errorsListed
    (listed (ListDirWith (Sample.failOnB Sample.f) Sample2.mixed Sample.f Sample.acceptAll
               (Sample.rootJob 0) Sample.world).2)
  = [errorsNew "bad entry"] ∧
  List.map id
    (objectsListed
       (listed (ListDirWith (Sample.failOnB Sample.f) Sample2.mixed Sample.f Sample.acceptAll
                  (Sample.rootJob 0) Sample.world).2))
  = ["9"; "7"].
Proof. repeat split. Qed.

(** The listing of [a/b] fails: the error reaches the sink and the sibling
    [a/c], queued behind it, is listed all the same. *)
Example runQueue_after_failed_listing :
  List.map rest.Path
    (pacedCalls (EnumerateRecursive Sample.broken 10 Sample.dc Sample.f
                   Sample.acceptAll "" 5 Sample.world).2)
  = ["/folder/list.json/S/0"; "/folder/list.json/S/1"; "/folder/list.json/S/2";
     "/folder/list.json/S/3"] ∧
  List.map fs.Name
    (dirsListed (listed (EnumerateRecursive Sample.broken 10 Sample.dc Sample.f
                           Sample.acceptAll "" 5 Sample.world).2))
  = ["/a"; "/a/b"; "/a/c"] ∧
  errorsListed (listed (EnumerateRecursive Sample.broken 10 Sample.dc Sample.f
                          Sample.acceptAll "" 5 Sample.world).2)
  = [errorsWrap (errorsNew "unexpected EOF") "failed to get folder list"].
Proof. repeat split. Qed.

(** ** Looking a leaf up *)





Example Resolve_absent_below_a :
  (Resolve Sample.tree Sample.dc Sample.f "a/x" false Sample.world).1
    = Ok ("", Some (dirNotFound "a/x")) ∧
  createDirCalls (Resolve Sample.tree Sample.dc Sample.f "a/x" false Sample.world).2 = [].
Proof. split; reflexivity. Qed.


(** ** Creating a directory *)




(** C10. Past the root shortcut and once the listing has come back,
    [FindLeaf] looks through the folders before the files: when no folder is
    called [leaf] but a file is, it answers found with a file's identifier;
    when a folder is called [leaf] it answers with a folder's identifier,
    whatever the files are.  So the directory cache can come to hold a file's
    identifier: resolving [file1] in a root that lists the file [file1]
    caches that file's identifier under the path [file1]. *)
Theorem FindLeaf_folders_before_files (R : Remote) (f : Fs) (pathID leaf : string)
    (fl : FolderList) (w : World) :
  ¬ (pathID = "0" ∧ leaf = "") →
  pacedFolderList R (listOpts f pathID) = (None, fl) →
  ((∀ folder, folder ∈ Folders fl → Folder.Name folder ≠ leaf) →
   (∃ file, file ∈ Files fl ∧ File.Name file = leaf) →
   ∃ file, file ∈ Files fl ∧ File.Name file = leaf
           ∧ (FindLeaf R f pathID leaf w).1 = Ok (File.FileID file, true, None)) ∧
  ((∃ folder, folder ∈ Folders fl ∧ Folder.Name folder = leaf) →
   ∃ folder, folder ∈ Folders fl ∧ Folder.Name folder = leaf
             ∧ (FindLeaf R f pathID leaf w).1 = Ok (Folder.FolderID folder, true, None)) ∧
  (∃ w', Resolve Sample.clash Sample.dc Sample.f "file1" false Sample.world
           = (Ok (File.FileID Sample.file1, None), w')
         ∧ cache w' !! "file1" = Some (File.FileID Sample.file1)
         ∧ Sample.file1 ∈ Files (Sample.clashList (listOpts Sample.f "0")).2).
Proof.
  intros Hroot Hlist.
  destruct (FindLeaf_run R f pathID leaf fl w Hroot Hlist) as (w' & Hrun & _).
  rewrite Hrun. unfold searchListing. simpl. split; [|split].
  - intros Hfolders Hfile.
    rewrite (find_unnamed Folder.Name leaf _ Hfolders).
    destruct (find_named File.Name leaf _ Hfile) as (file & -> & Hin & Hname).
    by exists file.
  - intros Hfolder.
    destruct (find_named Folder.Name leaf _ Hfolder) as (folder & -> & Hin & Hname).
    by exists folder.
  - exists (Resolve Sample.clash Sample.dc Sample.f "file1" false Sample.world).2.
    split; [reflexivity|]. split; [reflexivity|]. left.
Qed.

Lemma FindLeaf_folders_before_files_witness :
  (FindLeaf Sample.clash Sample.f "0" "file1" Sample.world).1 = Ok ("9", true, None) ∧
  (FindLeaf Sample.clash Sample.f "0" "b" Sample.world).1 = Ok ("2", true, None).
Proof.
  assert (Hroot : ∀ leaf, leaf ≠ "" → ¬ ("0" = "0" ∧ leaf = "")) by (intros leaf ? [_ ?]; done).
  assert (Hlist : pacedFolderList Sample.clash (listOpts Sample.f "0")
                  = (None, {| Folders := [Sample.folderA; Sample.folderB];
                              Files := [Sample.file1; Sample.fileB] |}))
    by reflexivity.
  split.
  - destruct (FindLeaf_folders_before_files Sample.clash Sample.f "0" "file1" _
                Sample.world (Hroot "file1" ltac:(discriminate)) Hlist)
      as (Hfile & _ & _).
    destruct Hfile as (file & Hin & Hname & Hrun).
    + intros folder Hin. apply list_elem_of_In in Hin.
      destruct Hin as [<- | [<- | []]]; discriminate.
    + exists Sample.file1. split; [by left | reflexivity].
    + rewrite Hrun. apply list_elem_of_In in Hin.
      destruct Hin as [<- | [<- | []]]; [reflexivity | discriminate Hname].
  - destruct (FindLeaf_folders_before_files Sample.clash Sample.f "0" "b" _
                Sample.world (Hroot "b" ltac:(discriminate)) Hlist)
      as (_ & Hfolder & _).
    destruct Hfolder as (folder & Hin & Hname & Hrun).
    + exists Sample.folderB. split; [right; left | reflexivity].
    + rewrite Hrun. apply list_elem_of_In in Hin.
      destruct Hin as [<- | [<- | []]]; [discriminate Hname | reflexivity].
Defined.

(** * Further properties of the driver *)

(** ** Construction *)

Lemma NewFs_unvalidated (R : Remote) (name root : string) (w : World) :
  ¬ credentialsOk R name →
  ∃ msg, NewFs R name root w = (Ok (None, Some (errorsNew msg)), w)
         ∧ (msg = "username not found" ∨ msg = "password coudl not revealed"
            ∨ msg = "password not found").
Proof.
  unfold credentialsOk, NewFs. intros Hbad.
  destruct (String.eqb_spec (ConfigFileGet R name "username") "") as [Huser|Huser].
  { eexists. split; [reflexivity|]. by left. }
  destruct (Reveal R (ConfigFileGet R name "password")) as [password [e|]]; simpl in *.
  { eexists. split; [reflexivity|]. right. by left. }
  destruct (String.eqb_spec password "") as [Hpass|Hpass].
  { eexists. split; [reflexivity|]. right. by right. }
  destruct Hbad. by repeat split.
Qed.

Lemma NewFs_validated (R : Remote) (name root : string) (w : World) :
  credentialsOk R name →
  let account := configuredAccount R name in
  let w1 := {| debugLog := debugLog w ++ [DebugUser (Username account);
                                          DebugPass (Password account)];
               pacedCalls := pacedCalls w ++ [loginOpts];
               listed := listed w; cache := {[ "" := "0" ]} |} in
  NewFs R name root w =
    match (pacedLogin R loginOpts account).1 with
    | Some e => (Ok (None, Some (errorsWrap e "failed to create session")), w1)
    | None =>
      (Ok (Some {| name := name; username := Username account;
                   password := Password account; srv := defaultEndpoint;
                   pacer_ := pacer.SetDecayConstant decayConstant
                               (pacer.SetMaxSleep maxSleep
                                  (pacer.SetMinSleep minSleep (pacerNew R)));
                   session := (pacedLogin R loginOpts account).2;
                   dirCache := dircache.New root "0" |}, None),
       (Debugf (DebugSession (SessionID (pacedLogin R loginOpts account).2)) w1).2)
    end.
Proof.
  unfold credentialsOk, configuredAccount, NewFs, loginOpts.
  intros (Huser & Hreveal & Hpass).
  destruct (String.eqb_spec (ConfigFileGet R name "username") "") as [?|_]; [done|].
  destruct (Reveal R (ConfigFileGet R name "password")) as [password err]; simpl in *.
  subst err.
  destruct (String.eqb_spec password "") as [?|_]; [done|].
  run. rewrite <- app_assoc. simpl.
  destruct (pacedLogin R _ _) as [[e|] sess]; reflexivity.
Qed.

(** X1. What [NewFs] returns is an [Fs] or an error, never both and never
    neither; it is an [Fs] exactly when the configuration has a user name
    and a revealable, non-empty password and the login call ended without
    error. *)
Theorem NewFs_returns_fs_or_error (R : Remote) (name root : string) (w w' : World)
    (f : option Fs) (err : option error) :
  NewFs R name root w = (Ok (f, err), w') →
  (is_Some f ↔ err = None)
  ∧ (is_Some f ↔
       credentialsOk R name
       ∧ (pacedLogin R loginOpts (configuredAccount R name)).1 = None).
Proof.
  intros Hrun.
  destruct (decide (ConfigFileGet R name "username" ≠ ""
                    ∧ (Reveal R (ConfigFileGet R name "password")).2 = None
                    ∧ (Reveal R (ConfigFileGet R name "password")).1 ≠ ""))
    as [Hok|Hbad].
  - pose proof (NewFs_validated R name root w Hok) as Hval. simpl in Hval.
    rewrite Hval in Hrun.
    destruct (pacedLogin R loginOpts (configuredAccount R name)) as [[e|] sess];
      simpl in Hrun; injection Hrun as <- <- _.
    + split; [split; [intros [? [=]] | intros [=]] | split; [intros [? [=]] | intros [_ [=]]]].
    + split; [split; [done | by eexists] | split; [done | by eexists]].
  - destruct (NewFs_unvalidated R name root w Hbad) as (msg & Hbadrun & _).
    rewrite Hbadrun in Hrun. injection Hrun as <- <- _.
    split; [split; [intros [? [=]] | intros [=]] |].
    split; [intros [? [=]] | intros [Hok _]; by destruct Hbad].
Qed.

Lemma NewFs_returns_fs_or_error_witness :
  NewFs Sample2.loginFails "remote" "" Sample.world
    = (Ok (None, Some (errorsWrap (errorsNew "401 Unauthorized") "failed to create session")),
       (NewFs Sample2.loginFails "remote" "" Sample.world).2) ∧
  ¬ (credentialsOk Sample2.loginFails "remote"
     ∧ (pacedLogin Sample2.loginFails loginOpts
          (configuredAccount Sample2.loginFails "remote")).1 = None).
Proof.
  assert (Hrun : NewFs Sample2.loginFails "remote" "" Sample.world
                 = (Ok (None, Some (errorsWrap (errorsNew "401 Unauthorized")
                                      "failed to create session")),
                    (NewFs Sample2.loginFails "remote" "" Sample.world).2))
    by reflexivity.
  split; [exact Hrun|].
  destruct (NewFs_returns_fs_or_error _ _ _ _ _ _ _ Hrun) as [_ Hiff].
  intros Hok. apply Hiff in Hok. destruct Hok as [fs Hfs]. discriminate Hfs.
Defined.

(** X2. When the configuration fails one of the three checks, [NewFs] gives
    up before touching anything: no debug line, no call to the service, the
    directory cache as it was; the error is one of three fixed messages, and
    what [fs.Reveal] reported is not passed on. *)
Theorem NewFs_bad_credentials_touch_nothing (R : Remote) (name root : string)
    (w : World) :
  ¬ credentialsOk R name →
  ∃ msg, NewFs R name root w = (Ok (None, Some (errorsNew msg)), w)
         ∧ (ConfigFileGet R name "username" = "" → msg = "username not found")
         ∧ (ConfigFileGet R name "username" ≠ "" →
            (Reveal R (ConfigFileGet R name "password")).2 ≠ None →
            msg = "password coudl not revealed")
         ∧ (ConfigFileGet R name "username" ≠ "" →
            (Reveal R (ConfigFileGet R name "password")).2 = None →
            msg = "password not found").
Proof.
  unfold credentialsOk, NewFs. intros Hbad.
  destruct (String.eqb_spec (ConfigFileGet R name "username") "") as [Huser|Huser].
  { eexists. split; [reflexivity|]. by repeat split. }
  destruct (Reveal R (ConfigFileGet R name "password")) as [password [e|]]; simpl in *.
  { eexists. split; [reflexivity|]. by repeat split. }
  destruct (String.eqb_spec password "") as [Hpass|Hpass].
  { eexists. split; [reflexivity|]. by repeat split. }
  destruct Hbad. by repeat split.
Qed.


(** X3. Once the configuration passes the checks, [NewFs] writes the
    revealed password in clear to the debug log and issues exactly one call,
    the login, whether or not that call succeeds; a failed login comes back
    as the service's error wrapped in "failed to create session", without an
    [Fs]. *)
Theorem NewFs_logs_password_then_logs_in (R : Remote) (name root : string) (w : World) :
  credentialsOk R name →
  ∃ r w',
    NewFs R name root w = (Ok r, w')
    ∧ DebugPass (Reveal R (ConfigFileGet R name "password")).1 ∈ debugLog w'
    ∧ pacedCalls w' = pacedCalls w ++ [loginOpts]
    ∧ listed w' = listed w
    ∧ (∀ e, (pacedLogin R loginOpts (configuredAccount R name)).1 = Some e →
            r = (None, Some (errorsWrap e "failed to create session"))).
Proof.
  intros Hok. pose proof (NewFs_validated R name root w Hok) as Hrun. simpl in Hrun.
  rewrite Hrun.
  destruct (pacedLogin R loginOpts (configuredAccount R name)) as [[e|] sess]; simpl;
    do 2 eexists; (split; [reflexivity|]); simpl.
  - split; [set_solver|]. repeat split. by intros e' [= <-].
  - split; [set_solver|]. repeat split. by intros e' [=].
Qed.

Lemma NewFs_logs_password_then_logs_in_witness :
  credentialsOk Sample2.loginFails "remote" ∧
  ∃ r w',
    NewFs Sample2.loginFails "remote" "" Sample.world = (Ok r, w')
    ∧ DebugPass "secret" ∈ debugLog w'
    ∧ r = (None, Some (errorsWrap (errorsNew "401 Unauthorized") "failed to create session")).
Proof.
  assert (Hok : credentialsOk Sample2.loginFails "remote").
  { unfold credentialsOk. simpl. repeat split; discriminate. }
  split; [exact Hok|].
  destruct (NewFs_logs_password_then_logs_in Sample2.loginFails "remote" "" Sample.world Hok)
    as (r & w' & Hrun & Hlog & _ & _ & Herr).
  exists r, w'. split; [exact Hrun|]. split; [exact Hlog|].
  apply Herr. reflexivity.
Defined.

(** X4. An [Fs] that [NewFs] returns carries the name it was given, the
    configured user name, the revealed password, the default endpoint, a
    directory cache rooted at [root] with root identifier "0", and the
    session the login call answered; every listing request it builds then
    names that session.  Its [Root] is "/" whatever [root] was. *)
Theorem NewFs_fs_state (R : Remote) (name root : string) (w w' : World) (f : Fs)
    (err : option error) :
  NewFs R name root w = (Ok (Some f, err), w') →
  err = None
  ∧ Fs_Name f = name ∧ Fs_Root f = "/"
  ∧ username f = ConfigFileGet R name "username"
  ∧ password f = (Reveal R (ConfigFileGet R name "password")).1
  ∧ srv f = defaultEndpoint
  ∧ dirCache f = dircache.New root "0"
  ∧ session f = (pacedLogin R loginOpts (configuredAccount R name)).2
  ∧ (∀ dirID, listOpts f dirID =
       {| rest.Method := "GET";
          rest.Path := "/folder/list.json/"
                       +:+ SessionID (pacedLogin R loginOpts (configuredAccount R name)).2
                       +:+ "/" +:+ dirID |}).
Proof.
  intros Hrun.
  destruct (decide (ConfigFileGet R name "username" ≠ ""
                    ∧ (Reveal R (ConfigFileGet R name "password")).2 = None
                    ∧ (Reveal R (ConfigFileGet R name "password")).1 ≠ ""))
    as [Hok|Hbad].
  - pose proof (NewFs_validated R name root w Hok) as Hval. simpl in Hval.
    rewrite Hval in Hrun.
    destruct (pacedLogin R loginOpts (configuredAccount R name)) as [[e|] sess];
      simpl in Hrun; [discriminate|].
    injection Hrun as <- <- _. by repeat split.
  - destruct (NewFs_unvalidated R name root w Hbad) as (msg & Hbadrun & _).
    rewrite Hbadrun in Hrun. discriminate.
Qed.

Lemma NewFs_fs_state_witness :
  NewFs Sample.tree "remote" "some/dir" Sample.world
    = (Ok (Some (Sample2.fsAt "some/dir"), None),
       (NewFs Sample.tree "remote" "some/dir" Sample.world).2) ∧
  Fs_Name (Sample2.fsAt "some/dir") = "remote" ∧
  Fs_Root (Sample2.fsAt "some/dir") = "/" ∧
  dirCache (Sample2.fsAt "some/dir") = dircache.New "some/dir" "0".
Proof.
  assert (Hrun : NewFs Sample.tree "remote" "some/dir" Sample.world
                 = (Ok (Some (Sample2.fsAt "some/dir"), None),
                    (NewFs Sample.tree "remote" "some/dir" Sample.world).2))
    by reflexivity.
  split; [exact Hrun|].
  destruct (NewFs_fs_state _ _ _ _ _ _ _ Hrun) as (_ & Hname & Hroot & _ & _ & _ & Hdc & _).
  split; [exact Hname|]. split; [exact Hroot | exact Hdc].
Defined.

Lemma NewFs_bad_credentials_touch_nothing_witness :
  ¬ credentialsOk Sample2.noUser "remote" ∧
  NewFs Sample2.noUser "remote" "" Sample.world
    = (Ok (None, Some (errorsNew "username not found")), Sample.world).
Proof.
  assert (Hbad : ¬ credentialsOk Sample2.noUser "remote").
  { intros [Huser _]. by apply Huser. }
  split; [exact Hbad|].
  destruct (NewFs_bad_credentials_touch_nothing Sample2.noUser "remote" "" Sample.world Hbad)
    as (msg & Hrun & Huser & _).
  rewrite Hrun, (Huser eq_refl). reflexivity.
Defined.

(** ** Looking a leaf up *)

Lemma find_first {A} (nameOf : A → string) (leaf : string) (pre post : list A) (x : A) :
  nameOf x = leaf →
  (∀ y, y ∈ pre → nameOf y ≠ leaf) →
  List.find (λ y, String.eqb leaf (nameOf y)) (pre ++ x :: post) = Some x.
Proof.
  intros Hx. induction pre as [|y pre IH]; intros Hpre; simpl.
  - by rewrite Hx, String.eqb_refl.
  - destruct (String.eqb_spec leaf (nameOf y)) as [Heq|_].
    + destruct (Hpre y); [by left | done].
    + apply IH. intros z Hz. apply Hpre. by right.
Qed.

Lemma find_unique {A} (nameOf : A → string) (l : list A) (x : A) :
  NoDup (List.map nameOf l) → x ∈ l →
  List.find (λ y, String.eqb (nameOf x) (nameOf y)) l = Some x.
Proof.
  induction l as [|y l IH]; intros Hnodup Hin; [by apply elem_of_nil in Hin|].
  simpl in *. apply NoDup_cons in Hnodup as [Hy Hnodup].
  apply elem_of_cons in Hin as [->|Hin]; [by rewrite String.eqb_refl|].
  destruct (String.eqb_spec (nameOf x) (nameOf y)) as [Heq|_]; [|by apply IH].
  destruct Hy. rewrite <- Heq. apply list_elem_of_In, List.in_map, list_elem_of_In, Hin.
Qed.

Lemma isRootLookup_dec (pathID leaf : string) :
  String.eqb pathID "0" && String.eqb leaf "" = true ↔ isRootLookup pathID leaf.
Proof.
  unfold isRootLookup. rewrite andb_true_iff, !String.eqb_eq. reflexivity.
Qed.

(** What [FindLeaf] leaves behind: the sink, the cache and the record of
    [CreateDir] calls as they were, and one more paced call unless the lookup
    was the root shortcut. *)
Lemma FindLeaf_frame (R : Remote) (f : Fs) (pathID leaf : string) (w : World) :
  ∃ r w', FindLeaf R f pathID leaf w = (Ok r, w')
          ∧ listed w' = listed w ∧ cache w' = cache w
          ∧ createDirCalls w' = createDirCalls w
          ∧ pacedCalls w' = pacedCalls w ++
              (if String.eqb pathID "0" && String.eqb leaf "" then []
               else [listOpts f pathID])
          ∧ (String.eqb pathID "0" && String.eqb leaf "" = true → r = (pathID, true, None))
          ∧ (String.eqb pathID "0" && String.eqb leaf "" = false →
             ∀ e fl, pacedFolderList R (listOpts f pathID) = (Some e, fl) →
                     r = ("", false, Some (errorsWrap e "failed to get folder list")))
          ∧ (String.eqb pathID "0" && String.eqb leaf "" = false →
             ∀ fl, pacedFolderList R (listOpts f pathID) = (None, fl) →
                   r = searchListing leaf fl).
Proof.
  destruct (String.eqb pathID "0" && String.eqb leaf "") eqn:Hroot.
  { unfold FindLeaf. run. rewrite Hroot. do 2 eexists. split; [reflexivity|]. simpl.
    rewrite app_nil_r. repeat split; try done. by apply createDirCalls_log. }
  destruct (pacedFolderList R (listOpts f pathID)) as [[e|] fl] eqn:Hlist.
  { unfold FindLeaf. run. rewrite Hroot, Hlist. do 2 eexists. split; [reflexivity|].
    simpl. repeat split; try done.
    - by apply createDirCalls_log.
    - by intros _ e' fl' [= <- _]. }
  destruct (FindLeaf_run R f pathID leaf fl w) as (w' & Hrun & Hp & Hl & Hc & Hd);
    [| exact Hlist |].
  { intros [-> ->]. discriminate Hroot. }
  exists (searchListing leaf fl), w'. repeat split; try done.
  by intros _ fl' [= <-].
Qed.

(** X5. Past the root shortcut and with the listing at hand, [FindLeaf]
    returns a nil error, and it answers found exactly when the listing holds
    a folder or a file called [leaf]; the identifier it returns is then that
    of a listed folder or file of that name, and is empty when nothing is
    found. *)
Theorem FindLeaf_found_iff_listed (R : Remote) (f : Fs) (pathID leaf : string)
    (fl : FolderList) (w : World) :
  ¬ isRootLookup pathID leaf →
  pacedFolderList R (listOpts f pathID) = (None, fl) →
  ∃ pathIDOut found w',
    FindLeaf R f pathID leaf w = (Ok (pathIDOut, found, None), w')
    ∧ (found = true ↔
         (∃ folder, folder ∈ Folders fl ∧ Folder.Name folder = leaf)
         ∨ (∃ file, file ∈ Files fl ∧ File.Name file = leaf))
    ∧ (found = true →
         (∃ folder, folder ∈ Folders fl ∧ Folder.Name folder = leaf
                    ∧ Folder.FolderID folder = pathIDOut)
         ∨ (∃ file, file ∈ Files fl ∧ File.Name file = leaf
                    ∧ File.FileID file = pathIDOut))
    ∧ (found = false → pathIDOut = "").
Proof.
  intros Hroot Hlist.
  destruct (FindLeaf_run R f pathID leaf fl w Hroot Hlist) as (w' & Hrun & _).
  rewrite Hrun. unfold searchListing.
  destruct (List.find _ (Folders fl)) as [folder|] eqn:Hfolder.
  { apply List.find_some in Hfolder as [Hin Hname].
    apply list_elem_of_In in Hin. apply String.eqb_eq in Hname.
    do 3 eexists. split; [reflexivity|]. repeat split; try done.
    - intros _. left. by exists folder.
    - intros _. left. by exists folder. }
  destruct (List.find _ (Files fl)) as [file|] eqn:Hfile.
  { apply List.find_some in Hfile as [Hin Hname].
    apply list_elem_of_In in Hin. apply String.eqb_eq in Hname.
    do 3 eexists. split; [reflexivity|]. repeat split; try done.
    - intros _. right. by exists file.
    - intros _. right. by exists file. }
  do 3 eexists. split; [reflexivity|]. repeat split; try done.
  intros [(folder & Hin & Hname) | (file & Hin & Hname)].
  - apply list_elem_of_In in Hin.
    pose proof (List.find_none _ _ Hfolder folder Hin) as Hno. simpl in Hno.
    by rewrite Hname, String.eqb_refl in Hno.
  - apply list_elem_of_In in Hin.
    pose proof (List.find_none _ _ Hfile file Hin) as Hno. simpl in Hno.
    by rewrite Hname, String.eqb_refl in Hno.
Qed.

Lemma FindLeaf_found_iff_listed_witness :
  ¬ isRootLookup "0" "c" ∧
  ∃ pathIDOut found w',
    FindLeaf Sample.clash Sample.f "0" "c" Sample.world = (Ok (pathIDOut, found, None), w')
    ∧ (found = false → pathIDOut = "").
Proof.
  assert (Hroot : ¬ isRootLookup "0" "c") by (intros [_ Hleaf]; discriminate Hleaf).
  split; [exact Hroot|].
  destruct (FindLeaf_found_iff_listed Sample.clash Sample.f "0" "c"
              {| Folders := [Sample.folderA; Sample.folderB];
                 Files := [Sample.file1; Sample.fileB] |} Sample.world Hroot eq_refl)
    as (pathIDOut & found & w' & Hrun & _ & _ & Hempty).
  exists pathIDOut, found, w'. split; [exact Hrun | exact Hempty].
Defined.

(** X6. Among several entries of the same name [FindLeaf] answers with the
    first in listing order: the first folder called [leaf] wins over later
    folders and over every file, and without such a folder the first file
    called [leaf] wins over later files. *)
Theorem FindLeaf_first_match (R : Remote) (f : Fs) (pathID leaf : string)
    (fl : FolderList) (w : World) :
  ¬ isRootLookup pathID leaf →
  pacedFolderList R (listOpts f pathID) = (None, fl) →
  (∀ before folder after,
      Folders fl = before ++ folder :: after →
      Folder.Name folder = leaf →
      (∀ earlier, earlier ∈ before → Folder.Name earlier ≠ leaf) →
      (FindLeaf R f pathID leaf w).1 = Ok (Folder.FolderID folder, true, None)) ∧
  (∀ before file after,
      (∀ folder, folder ∈ Folders fl → Folder.Name folder ≠ leaf) →
      Files fl = before ++ file :: after →
      File.Name file = leaf →
      (∀ earlier, earlier ∈ before → File.Name earlier ≠ leaf) →
      (FindLeaf R f pathID leaf w).1 = Ok (File.FileID file, true, None)).
Proof.
  intros Hroot Hlist.
  destruct (FindLeaf_run R f pathID leaf fl w Hroot Hlist) as (w' & Hrun & _).
  rewrite Hrun. unfold searchListing. simpl. split.
  - intros before folder after -> Hname Hbefore.
    by rewrite (find_first Folder.Name leaf before after folder Hname Hbefore).
  - intros before file after Hfolders -> Hname Hbefore.
    rewrite (find_unnamed Folder.Name leaf _ Hfolders).
    by rewrite (find_first File.Name leaf before after file Hname Hbefore).
Qed.

Lemma FindLeaf_first_match_witness :
  ¬ isRootLookup "0" "a" ∧
  (FindLeaf Sample2.twins Sample.f "0" "a" Sample.world).1 = Ok ("1", true, None) ∧
  (FindLeaf Sample2.twins Sample.f "0" "file1" Sample.world).1 = Ok ("9", true, None).
Proof.
  assert (Hroot : ∀ leaf, leaf ≠ "" → ¬ isRootLookup "0" leaf) by (intros leaf ? [_ ?]; done).
  split; [apply Hroot; discriminate|]. split.
  - refine (proj1 (FindLeaf_first_match Sample2.twins Sample.f "0" "a" _ Sample.world
                     (Hroot "a" ltac:(discriminate)) eq_refl)
              [Sample.folderB] Sample.folderA [Sample2.folderA'] eq_refl eq_refl _).
    intros earlier Hin. apply list_elem_of_In in Hin. destruct Hin as [<- | []]. discriminate.
  - refine (proj2 (FindLeaf_first_match Sample2.twins Sample.f "0" "file1" _ Sample.world
                     (Hroot "file1" ltac:(discriminate)) eq_refl)
              [] Sample.file1 [Sample2.file1'] _ eq_refl eq_refl _).
    + intros folder Hin. apply list_elem_of_In in Hin.
      destruct Hin as [<- | [<- | [<- | []]]]; discriminate.
    + intros earlier Hin. apply list_elem_of_In in Hin. destruct Hin.
Defined.

(** X7. The error [FindLeaf] returns is non-nil exactly when the lookup is
    not the root shortcut and the listing call failed; the error is then the
    service's, wrapped in "failed to get folder list", and the answer is the
    empty identifier, not found. *)
Theorem FindLeaf_error_iff_listing_failed (R : Remote) (f : Fs) (pathID leaf : string)
    (w w' : World) (pathIDOut : string) (found : bool) (err : option error) :
  FindLeaf R f pathID leaf w = (Ok (pathIDOut, found, err), w') →
  (err ≠ None ↔
     ¬ isRootLookup pathID leaf
     ∧ (pacedFolderList R (listOpts f pathID)).1 ≠ None)
  ∧ (∀ e, err = Some e →
       pathIDOut = "" ∧ found = false
       ∧ ∃ cause, (pacedFolderList R (listOpts f pathID)).1 = Some cause
                  ∧ e = errorsWrap cause "failed to get folder list").
Proof.
  intros Hreturned.
  destruct (FindLeaf_frame R f pathID leaf w)
    as (r & w1 & Hrun & _ & _ & _ & _ & Hshort & Hfail & Hsearch).
  rewrite Hrun in Hreturned. injection Hreturned as -> _.
  destruct (String.eqb pathID "0" && String.eqb leaf "") eqn:Hroot.
  { apply isRootLookup_dec in Hroot as Hlookup.
    injection (Hshort eq_refl) as -> -> ->. split; [|done].
    split; [done | by intros [? _]]. }
  assert (Hnot : ¬ isRootLookup pathID leaf).
  { intros Hlookup. apply isRootLookup_dec in Hlookup. congruence. }
  destruct (pacedFolderList R (listOpts f pathID)) as [[cause|] fl] eqn:Hlist; simpl.
  - injection (Hfail eq_refl cause fl eq_refl) as -> -> ->. split; [done|].
    intros e [= <-]. repeat split. by exists cause.
  - pose proof (Hsearch eq_refl fl eq_refl) as Hr. unfold searchListing in Hr.
    assert (err = None) as ->.
    { destruct (List.find _ (Folders fl)); [congruence|].
      destruct (List.find _ (Files fl)); congruence. }
    split; [|done]. split; [done | by intros [_ ?]].
Qed.

Lemma FindLeaf_error_iff_listing_failed_witness :
  FindLeaf Sample2.down Sample.f "0" "a" Sample.world
    = (Ok ("", false, Some (errorsWrap (errorsNew "connection refused")
                              "failed to get folder list")),
       (FindLeaf Sample2.down Sample.f "0" "a" Sample.world).2) ∧
  ¬ isRootLookup "0" "a" ∧
  (pacedFolderList Sample2.down (listOpts Sample.f "0")).1 ≠ None.
Proof.
  assert (Hrun : FindLeaf Sample2.down Sample.f "0" "a" Sample.world
                 = (Ok ("", false, Some (errorsWrap (errorsNew "connection refused")
                                           "failed to get folder list")),
                    (FindLeaf Sample2.down Sample.f "0" "a" Sample.world).2))
    by reflexivity.
  split; [exact Hrun|].
  apply (proj1 (FindLeaf_error_iff_listing_failed _ _ _ _ _ _ _ _ _ Hrun)). discriminate.
Defined.

(** X8. [FindLeaf] hands nothing to the sink, leaves the directory cache
    alone and never calls [CreateDir].  The root shortcut issues no call;
    every other lookup issues exactly one, a GET of the listing of [pathID]
    under the session of [f], also when the same lookup was made before. *)
Theorem FindLeaf_calls_once (R : Remote) (f : Fs) (pathID leaf : string) (w : World) :
  listed (FindLeaf R f pathID leaf w).2 = listed w
  ∧ cache (FindLeaf R f pathID leaf w).2 = cache w
  ∧ createDirCalls (FindLeaf R f pathID leaf w).2 = createDirCalls w
  ∧ (isRootLookup pathID leaf →
     pacedCalls (FindLeaf R f pathID leaf w).2 = pacedCalls w)
  ∧ (¬ isRootLookup pathID leaf →
     pacedCalls (FindLeaf R f pathID leaf w).2
     = pacedCalls w ++
         [{| rest.Method := "GET";
             rest.Path := "/folder/list.json/" +:+ SessionID (session f)
                          +:+ "/" +:+ pathID |}]
     ∧ pacedCalls (FindLeaf R f pathID leaf (FindLeaf R f pathID leaf w).2).2
       = pacedCalls w ++ [listOpts f pathID; listOpts f pathID]).
Proof.
  destruct (FindLeaf_frame R f pathID leaf w)
    as (r & w' & Hrun & Hl & Hc & Hd & Hp & _).
  rewrite Hrun. simpl. repeat split; try done.
  - intros Hlookup. apply isRootLookup_dec in Hlookup. rewrite Hlookup in Hp.
    by rewrite app_nil_r in Hp.
  - destruct (String.eqb pathID "0" && String.eqb leaf "") eqn:Hroot; [|exact Hp].
    apply isRootLookup_dec in Hroot. done.
  - destruct (FindLeaf_frame R f pathID leaf w') as (r2 & w2 & Hrun2 & _ & _ & _ & Hp2 & _).
    rewrite Hrun2. simpl. rewrite Hp2, Hp.
    destruct (String.eqb pathID "0" && String.eqb leaf "") eqn:Hroot.
    + apply isRootLookup_dec in Hroot. done.
    + by rewrite <- app_assoc.
Qed.

Lemma FindLeaf_calls_once_witness :
  isRootLookup "0" "" ∧
  pacedCalls (FindLeaf Sample.tree Sample.f "0" "" Sample.world).2 = pacedCalls Sample.world.
Proof.
  assert (Hlookup : isRootLookup "0" "") by (split; reflexivity).
  split; [exact Hlookup|].
  exact (proj1 (proj2 (proj2 (proj2 (FindLeaf_calls_once Sample.tree Sample.f "0" ""
                                        Sample.world)))) Hlookup).
Defined.

(** ** Listing a directory *)

(** The folder loop for a sink whose [AddDir] answer depends on the entry
    alone. *)
Lemma listFolders_jobs (out : ListOpts) (rejects : fs.Dir → bool)
    (job : dircache.ListDirJob) (folders : list Folder.t)
    (jobs : list dircache.ListDirJob) (w : World) :
  (∀ seen dir, AddDirAborts out seen dir = rejects dir) →
  (listFolders out job folders jobs w).1 =
    Ok (jobs ++
        if (dircache.Depth job >? 0)%Z then
          List.map (childJob job)
            (List.filter (λ folder, included out job folder
                                    && negb (rejects (dirOf job folder))) folders)
        else []).
Proof.
  intros Hrejects. revert jobs w.
  induction folders as [|folder rest IH]; intros jobs w.
  { simpl. destruct (dircache.Depth job >? 0)%Z; by rewrite app_nil_r. }
  simpl. run. fold (included out job folder). fold (dirOf job folder).
  destruct (included out job folder); simpl; [|apply IH].
  rewrite Hrejects. destruct (rejects (dirOf job folder)); simpl; [apply IH|].
  destruct (dircache.Depth job >? 0)%Z eqn:Hdepth.
  - rewrite IH. by rewrite <- app_assoc.
  - apply IH.
Qed.

Lemma ListDir_result (R : Remote) (f : Fs) (out : ListOpts) (job : dircache.ListDirJob)
    (fl : FolderList) (w : World) :
  pacedFolderList R (listOpts f (dircache.DirID job)) = (None, fl) →
  (ListDir R f out job w).1 =
    match (listFolders out job (Folders fl) []
             (issue (listOpts f (dircache.DirID job)) (Debugf (DebugListDir job) w).2).2).1 with
    | Ok jobs => Ok (jobs, None)
    | Panicked reason => Panicked reason
    end.
Proof.
  intros Hlist. unfold ListDir. run. rewrite Hlist.
  match goal with |- context [listFolders out job _ [] ?w0] =>
    destruct (listFolders_run out job (Folders fl) [] w0) as (jobs & w1 & -> & _)
  end.
  by destruct (listFiles_run f out job (Files fl) w1) as (w2 & -> & _).
Qed.

(** X9. For a job of positive depth and a sink whose [AddDir] answer depends
    on the entry alone, the child jobs [ListDir] hands back are, in listing
    order, exactly those of the sub-folders that pass the filter and that
    [AddDir] does not turn down; each is the folder's identifier, the
    folder's path with a trailing slash and the depth less one. *)
Theorem ListDir_jobs_exact (R : Remote) (f : Fs) (out : ListOpts)
    (rejects : fs.Dir → bool) (job : dircache.ListDirJob) (fl : FolderList) (w : World) :
  GoInt.inRange (dircache.Depth job) →
  (0 < dircache.Depth job)%Z →
  (∀ seen dir, AddDirAborts out seen dir = rejects dir) →
  pacedFolderList R (listOpts f (dircache.DirID job)) = (None, fl) →
  (ListDir R f out job w).1 =
    Ok (List.map
          (λ folder,
             {| dircache.DirID := Folder.FolderID folder;
                dircache.Path := (dircache.Path job +:+ Folder.Name folder) +:+ "/";
                dircache.Depth := (dircache.Depth job - 1)%Z |})
          (List.filter
             (λ folder, IncludeDirectory out (dircache.Path job +:+ Folder.Name folder)
                        && negb (rejects (dirOf job folder)))
             (Folders fl)),
        None).
Proof.
  intros Hrange Hpos Hrejects Hlist.
  rewrite (ListDir_result R f out job fl w Hlist).
  rewrite (listFolders_jobs out rejects job (Folders fl) [] _ Hrejects).
  destruct (Z.gtb_spec (dircache.Depth job) 0) as [_|?]; [|lia]. simpl.
  assert (Hchild : ∀ folder,
            childJob job folder
            = {| dircache.DirID := Folder.FolderID folder;
                 dircache.Path := (dircache.Path job +:+ Folder.Name folder) +:+ "/";
                 dircache.Depth := (dircache.Depth job - 1)%Z |}).
  { intros folder. unfold childJob. by rewrite (wrap_pred _ Hpos Hrange). }
  by rewrite (List.map_ext _ _ Hchild).
Qed.

Lemma ListDir_jobs_exact_witness :
  (0 < dircache.Depth (Sample2.jobA 2))%Z ∧
  (ListDir Sample.tree Sample.f Sample2.noDescentAB (Sample2.jobA 2) Sample.world).1
  = Ok ([{| dircache.DirID := "3"; dircache.Path := "a/c/"; dircache.Depth := 1 |}], None).
Proof.
  assert (Hpos : (0 < dircache.Depth (Sample2.jobA 2))%Z) by (simpl; lia).
  split; [exact Hpos|].
  refine (ListDir_jobs_exact Sample.tree Sample.f Sample2.noDescentAB Sample2.rejectsAB
            (Sample2.jobA 2) {| Folders := [Sample.folderB; Sample.folderC]; Files := [] |}
            Sample.world _ Hpos _ eq_refl).
  - unfold GoInt.inRange, GoInt.min, GoInt.max. simpl. lia.
  - intros seen dir. reflexivity.
Defined.

Lemma objectsListed_app (es1 es2 : list OutEvent) :
  objectsListed (es1 ++ es2) = objectsListed es1 ++ objectsListed es2.
Proof. apply omap_app. Qed.

Lemma objectsListed_AddDir (dirs : list fs.Dir) : objectsListed (List.map OutAddDir dirs) = [].
Proof. induction dirs as [|dir dirs IH]; simpl; [reflexivity | exact IH]. Qed.

Lemma objectsListed_Add (objects : list Object) :
  objectsListed (List.map OutAdd objects) = objects.
Proof. induction objects as [|o objects IH]; simpl; [reflexivity | by rewrite IH]. Qed.

Lemma errorsListed_app (es1 es2 : list OutEvent) :
  errorsListed (es1 ++ es2) = errorsListed es1 ++ errorsListed es2.
Proof. apply omap_app. Qed.

Lemma errorsListed_AddDir (dirs : list fs.Dir) : errorsListed (List.map OutAddDir dirs) = [].
Proof. induction dirs as [|dir dirs IH]; simpl; [reflexivity | exact IH]. Qed.

Lemma errorsListed_Add (objects : list Object) : errorsListed (List.map OutAdd objects) = [].
Proof. induction objects as [|o objects IH]; simpl; [reflexivity | exact IH]. Qed.

(** X10. When the listing comes back, every file of it reaches the sink
    exactly once as an object, in listing order and after all the
    directories, whatever the directory filter and [AddDir] answer: what the
    sink is handed is the included directories followed by one object per
    file.  The objects answer [Remote], [Size], [ModTime] and [Fs] with the
    job's path plus the file's name, the file's size, its modification date
    at second precision and the listing [Fs]. *)
Theorem ListDir_hands_over_every_file (R : Remote) (f : Fs) (out : ListOpts)
    (job : dircache.ListDirJob) (fl : FolderList) (w : World) :
  pacedFolderList R (listOpts f (dircache.DirID job)) = (None, fl) →
  ∃ dirs objects,
    listed (ListDir R f out job w).2
      = listed w ++ List.map OutAddDir dirs ++ List.map OutAdd objects
    ∧ objectsListed (listed (ListDir R f out job w).2)
      = objectsListed (listed w) ++ objects
    ∧ Forall2 (λ file o,
                 Object_Remote (Some o) = Ok (dircache.Path job +:+ File.Name file)
                 ∧ Object_String (Some o) = Ok (dircache.Path job +:+ File.Name file)
                 ∧ Object_Size (Some o) = Ok (File.Size file)
                 ∧ Object_ModTime (Some o) = Ok (time.Unix (File.DateModified file) 0)
                 ∧ Object_Fs (Some o) = Ok f
                 ∧ id o = File.FileID file)
              (Files fl) objects.
Proof.
  intros Hlist.
  destruct (ListDir_ok R f out job fl w Hlist) as (jobs & w' & Hrun & Hl & _).
  rewrite Hrun. simpl.
  exists (List.map (dirOf job) (List.filter (included out job) (Folders fl))),
         (List.map (objectOf f job) (Files fl)).
  split; [exact Hl|]. split.
  - rewrite Hl, !objectsListed_app, objectsListed_AddDir, objectsListed_Add. reflexivity.
  - clear Hlist Hrun Hl. induction (Files fl) as [|file files IH]; simpl.
    + constructor.
    + constructor; [by repeat split | exact IH].
Qed.

Lemma ListDir_hands_over_every_file_witness :
  pacedFolderList Sample.clash (listOpts Sample.f (dircache.DirID (Sample.rootJob 0)))
    = (None, {| Folders := [Sample.folderA; Sample.folderB];
                Files := [Sample.file1; Sample.fileB] |}) ∧
  ∃ objects,
    objectsListed (listed (ListDir Sample.clash Sample.f Sample.excludeAll (Sample.rootJob 0)
                             Sample.world).2)
      = objectsListed (listed Sample.world) ++ objects
    ∧ length objects = 2%nat.
Proof.
  split; [reflexivity|].
  destruct (ListDir_hands_over_every_file Sample.clash Sample.f Sample.excludeAll
              (Sample.rootJob 0) _ Sample.world eq_refl)
    as (dirs & objects & _ & Hobjects & Hall).
  exists objects. split; [exact Hobjects|].
  apply Forall2_length in Hall. simpl in Hall. by symmetry.
Defined.

(** X11. When [ListDir] returns, it has issued exactly one call, a GET of the
    listing of the job's directory under the session of [f], whatever the
    outcome; it has left the directory cache alone, has not called
    [CreateDir] and has not reported to the sink's error channel itself.  Its
    error is non-nil exactly when the listing call failed, and then the sink
    has received nothing and no job comes back. *)
Theorem ListDir_calls_once (R : Remote) (f : Fs) (out : ListOpts)
    (job : dircache.ListDirJob) (w w' : World) (jobs : list dircache.ListDirJob)
    (err : option error) :
  ListDir R f out job w = (Ok (jobs, err), w') →
  pacedCalls w' = pacedCalls w ++
    [{| rest.Method := "GET";
        rest.Path := "/folder/list.json/" +:+ SessionID (session f)
                     +:+ "/" +:+ dircache.DirID job |}]
  ∧ cache w' = cache w
  ∧ createDirCalls w' = createDirCalls w
  ∧ errorsListed (listed w') = errorsListed (listed w)
  ∧ (err ≠ None ↔ (pacedFolderList R (listOpts f (dircache.DirID job))).1 ≠ None)
  ∧ (err ≠ None → listed w' = listed w ∧ jobs = []).
Proof.
  intros Hreturned.
  destruct (pacedFolderList R (listOpts f (dircache.DirID job))) as [[e|] fl] eqn:Hlist.
  - destruct (ListDir_err R f out job e fl w Hlist) as (w1 & Hrun & Hl & Hp & Hc & Hd).
    rewrite Hrun in Hreturned. injection Hreturned as <- <- <-.
    rewrite Hl. by repeat split.
  - destruct (ListDir_ok R f out job fl w Hlist) as (jobs1 & w1 & Hrun & Hl & Hp & Hc & Hd & _).
    rewrite Hrun in Hreturned. injection Hreturned as <- <- <-.
    repeat split; try done.
    rewrite Hl, !errorsListed_app, errorsListed_AddDir, errorsListed_Add.
    by rewrite !app_nil_r.
Qed.

Lemma ListDir_calls_once_witness :
  ListDir Sample.broken Sample.f Sample.acceptAll (Sample2.jobA 2) Sample.world
    = (Ok ([{| dircache.DirID := "2"; dircache.Path := "a/b/"; dircache.Depth := 1 |};
            {| dircache.DirID := "3"; dircache.Path := "a/c/"; dircache.Depth := 1 |}], None),
       (ListDir Sample.broken Sample.f Sample.acceptAll (Sample2.jobA 2) Sample.world).2) ∧
  List.map rest.Path
    (pacedCalls (ListDir Sample.broken Sample.f Sample.acceptAll (Sample2.jobA 2)
                   Sample.world).2)
  = ["/folder/list.json/S/1"].
Proof.
  assert (Hrun : ListDir Sample.broken Sample.f Sample.acceptAll (Sample2.jobA 2) Sample.world
                 = (Ok ([{| dircache.DirID := "2"; dircache.Path := "a/b/";
                            dircache.Depth := 1 |};
                         {| dircache.DirID := "3"; dircache.Path := "a/c/";
                            dircache.Depth := 1 |}], None),
                    (ListDir Sample.broken Sample.f Sample.acceptAll (Sample2.jobA 2)
                       Sample.world).2))
    by reflexivity.
  split; [exact Hrun|].
  destruct (ListDir_calls_once _ _ _ _ _ _ _ _ Hrun) as (Hp & _).
  rewrite Hp. reflexivity.
Defined.

Lemma prefix_append (s t : string) : String.prefix s (s +:+ t) = true.
Proof.
  induction s as [|c s IH]; [by destruct t|].
  change (String c s +:+ t) with (String c (s +:+ t)). simpl.
  by destruct (Ascii.ascii_dec c c).
Qed.

Lemma append_assoc (s t u : string) : (s +:+ t) +:+ u = s +:+ (t +:+ u).
Proof.
  induction s as [|c s IH]; [reflexivity|].
  change (String c ((s +:+ t) +:+ u) = String c (s +:+ (t +:+ u))). by f_equal.
Qed.

(** X12. Everything [ListDir] hands to the sink is named under the job's
    path, and each child job it returns carries the name of a directory it
    has just emitted followed by a slash: so whatever is listed from a child
    job is named under that directory's entry. *)
Theorem ListDir_names_nest (R : Remote) (f : Fs) (out : ListOpts)
    (job : dircache.ListDirJob) (fl : FolderList) (w : World) :
  pacedFolderList R (listOpts f (dircache.DirID job)) = (None, fl) →
  ∃ jobs added w',
    ListDir R f out job w = (Ok (jobs, None), w')
    ∧ listed w' = listed w ++ added
    ∧ Forall (λ e, ∃ entry, entryName e = Some entry
                            ∧ String.prefix (dircache.Path job) entry = true) added
    ∧ Forall (λ j, ∃ dir, OutAddDir dir ∈ added
                          ∧ dircache.Path j = fs.Name dir +:+ "/"
                          ∧ ∀ child, String.prefix (fs.Name dir)
                                       (dircache.Path j +:+ child) = true) jobs.
Proof.
  intros Hlist.
  destruct (ListDir_ok R f out job fl w Hlist) as (jobs & w' & Hrun & Hl & _ & _ & _ & Hjobs & _).
  eexists jobs, _, w'. split; [exact Hrun|]. split; [exact Hl|]. split.
  - apply Forall_app. split.
    + apply List.Forall_map, List.Forall_map, Forall_forall. intros folder _.
      eexists. split; [reflexivity|]. apply prefix_append.
    + apply List.Forall_map, List.Forall_map, Forall_forall. intros file _.
      eexists. split; [reflexivity|]. apply prefix_append.
  - eapply Forall_impl; [exact Hjobs|]. intros j (folder & Hin & Hinc & ->).
    exists (dirOf job folder). split; [|split; [reflexivity|]].
    + apply elem_of_app. left. apply list_elem_of_In, List.in_map, List.in_map.
      apply List.filter_In. split; [by apply list_elem_of_In | exact Hinc].
    + intros child. simpl. rewrite append_assoc. apply prefix_append.
Qed.

Lemma ListDir_names_nest_witness :
  pacedFolderList Sample.tree (listOpts Sample.f (dircache.DirID (Sample2.jobA 2)))
    = (None, {| Folders := [Sample.folderB; Sample.folderC]; Files := [] |}) ∧
  ∃ jobs added w',
    ListDir Sample.tree Sample.f Sample.acceptAll (Sample2.jobA 2) Sample.world
      = (Ok (jobs, None), w')
    ∧ listed w' = listed Sample.world ++ added.
Proof.
  split; [reflexivity|].
  destruct (ListDir_names_nest Sample.tree Sample.f Sample.acceptAll (Sample2.jobA 2) _
              Sample.world eq_refl) as (jobs & added & w' & Hrun & Hl & _).
  exists jobs, added, w'. split; [exact Hrun | exact Hl].
Defined.

(** X13. Listing and lookup agree.  When the folder names of a listing are
    pairwise distinct, every child job [ListDir] returns for a directory can
    be found again by [FindLeaf] under that directory and the folder's name:
    the lookup answers found with the job's directory identifier (the root
    shortcut apart). *)
Theorem ListDir_jobs_are_found (R : Remote) (f : Fs) (out : ListOpts)
    (job : dircache.ListDirJob) (fl : FolderList) (w w2 : World) :
  pacedFolderList R (listOpts f (dircache.DirID job)) = (None, fl) →
  NoDup (List.map Folder.Name (Folders fl)) →
  ∃ jobs, (ListDir R f out job w).1 = Ok (jobs, None)
    ∧ Forall (λ j, ∃ folder,
                folder ∈ Folders fl
                ∧ dircache.DirID j = Folder.FolderID folder
                ∧ dircache.Path j = (dircache.Path job +:+ Folder.Name folder) +:+ "/"
                ∧ (¬ isRootLookup (dircache.DirID job) (Folder.Name folder) →
                   (FindLeaf R f (dircache.DirID job) (Folder.Name folder) w2).1
                   = Ok (dircache.DirID j, true, None))) jobs.
Proof.
  intros Hlist Hnodup.
  destruct (ListDir_ok R f out job fl w Hlist) as (jobs & w' & Hrun & _ & _ & _ & _ & Hjobs & _).
  exists jobs. rewrite Hrun. split; [reflexivity|].
  eapply Forall_impl; [exact Hjobs|]. intros j (folder & Hin & _ & ->).
  exists folder. split; [exact Hin|]. split; [reflexivity|]. split; [reflexivity|].
  intros Hroot.
  destruct (FindLeaf_run R f (dircache.DirID job) (Folder.Name folder) fl w2 Hroot Hlist)
    as (w3 & Hfind & _).
  rewrite Hfind. unfold searchListing.
  by rewrite (find_unique Folder.Name (Folders fl) folder Hnodup Hin).
Qed.

Lemma ListDir_jobs_are_found_witness :
  NoDup (List.map Folder.Name [Sample.folderB; Sample.folderC]) ∧
  ∃ jobs,
    (ListDir Sample.tree Sample.f Sample.acceptAll (Sample2.jobA 2) Sample.world).1
      = Ok (jobs, None)
    ∧ length jobs = 2%nat.
Proof.
  assert (Hnodup : NoDup (List.map Folder.Name [Sample.folderB; Sample.folderC])).
  { apply NoDup_cons. split; [|apply NoDup_singleton].
    intros Hin. apply list_elem_of_In in Hin. destruct Hin as [Heq | []]. discriminate Heq. }
  split; [exact Hnodup|].
  destruct (ListDir_jobs_are_found Sample.tree Sample.f Sample.acceptAll (Sample2.jobA 2)
              {| Folders := [Sample.folderB; Sample.folderC]; Files := [] |}
              Sample.world Sample.world eq_refl Hnodup) as (jobs & Hrun & _).
  exists jobs. split; [exact Hrun|].
  assert (Hjobs : Ok (jobs, @None error)
                  = (ListDir Sample.tree Sample.f Sample.acceptAll (Sample2.jobA 2)
                       Sample.world).1) by (symmetry; exact Hrun).
  injection Hjobs as ->. reflexivity.
Defined.

(** ** Objects *)

(** X14. No object that [ListDir] hands to the sink knows its MD5 sum: for
    each of them [Hash] answers the empty string, with a nil error for
    [fs.HashMD5] and with [fs.ErrHashUnsupported] for any other hash type. *)
Theorem ListDir_objects_have_empty_hash (HashMD5 : Z) (ErrHashUnsupported : error)
    (R : Remote) (f : Fs) (out : ListOpts) (job : dircache.ListDirJob) (w : World) :
  ∃ objects,
    objectsListed (listed (ListDir R f out job w).2) = objectsListed (listed w) ++ objects
    ∧ Forall (λ o,
                Object_Hash HashMD5 ErrHashUnsupported (Some o) HashMD5 = Ok ("", None)
                ∧ ∀ t, t ≠ HashMD5 →
                       Object_Hash HashMD5 ErrHashUnsupported (Some o) t
                       = Ok ("", Some ErrHashUnsupported)) objects.
Proof.
  destruct (pacedFolderList R (listOpts f (dircache.DirID job))) as [[e|] fl] eqn:Hlist.
  - destruct (ListDir_err R f out job e fl w Hlist) as (w' & Hrun & Hl & _).
    exists []. rewrite Hrun. simpl. rewrite Hl, app_nil_r. by split.
  - destruct (ListDir_ok R f out job fl w Hlist) as (jobs & w' & Hrun & Hl & _).
    exists (List.map (objectOf f job) (Files fl)). rewrite Hrun. simpl. split.
    + rewrite Hl, !objectsListed_app, objectsListed_AddDir, objectsListed_Add. reflexivity.
    + apply List.Forall_map, Forall_forall. intros file _. unfold Object_Hash. split.
      * by rewrite Z.eqb_refl.
      * intros t Ht. apply Z.eqb_neq in Ht. by rewrite Ht.
Qed.

(** X15. [String] is the one reader of an object that accepts a nil
    [*Object]: it answers "<nil>".  [Fs], [Remote], [Size] and [ModTime]
    panic on nil; [Hash] panics on nil exactly for [fs.HashMD5], the one type
    for which it reads the receiver, and answers [fs.ErrHashUnsupported] for
    any other type without looking at it. *)
Theorem Object_nil_receiver (HashMD5 : Z) (ErrHashUnsupported : error) :
  Object_String None = Ok "<nil>"
  ∧ Object_Fs None = Panicked nilDereference
  ∧ Object_Remote None = Panicked nilDereference
  ∧ Object_Size None = Panicked nilDereference
  ∧ Object_ModTime None = Panicked nilDereference
  ∧ (∀ t, Object_Hash HashMD5 ErrHashUnsupported None t = Panicked nilDereference
          ↔ t = HashMD5)
  ∧ (∀ o t, t ≠ HashMD5 →
            Object_Hash HashMD5 ErrHashUnsupported o t = Ok ("", Some ErrHashUnsupported)).
Proof.
  do 5 (split; [reflexivity|]). split.
  - intros t. unfold Object_Hash. split.
    + destruct (Z.eqb_spec t HashMD5); [done | discriminate].
    + intros ->. by rewrite Z.eqb_refl.
  - intros o t Ht. unfold Object_Hash. apply Z.eqb_neq in Ht. by rewrite Ht.
Qed.

(** X16. The hash set [Hashes] advertises and the hash types [Hash] accepts
    agree: on an object, [Hash] returns a nil error exactly for the type
    [Hashes] is made of. *)
Theorem Hash_supports_what_Hashes_advertises (HashMD5 : Z) (ErrHashUnsupported : error)
    (f : Fs) (o : Object) (t : Z) :
  (∃ sum, Object_Hash HashMD5 ErrHashUnsupported (Some o) t = Ok (sum, None))
  ↔ t = Fs_Hashes HashMD5 f.
Proof.
  unfold Object_Hash, Fs_Hashes. destruct (Z.eqb_spec t HashMD5) as [->|Hne]; simpl.
  - split; [done | intros _; by eexists].
  - split; [by intros [sum [=]] | done].
Qed.
